(** * kubectl_logs: resolution, fan-out and failure classification

    A shallow embedding of [src/tools/kubectl-logs.ts] (functions
    [kubectlLogs], [addLogOptions], [getLabelSelectorLogs],
    [formatLogOutput], [handleCommandError]) together with the properties
    the specification states about them.

    Conventions of the embedding.
    - JavaScript strings are Rocq strings; the primitives below act on
      characters one by one, which coincides with the JavaScript behaviour
      on ASCII text (all delimiters the module looks for are ASCII).
    - [execFileSync] of kubectl is an oracle from the argument vector to
      either the captured standard output or a raised error (the options,
      encoding, buffer size and environment, are the same at every call and
      belong to the oracle); the world is taken to stand still during one
      request, so the oracle is a function.  Every invocation is appended to
      a trace, so that the external calls made are part of what a run
      returns.
    - The text of a tool response is always [JSON.stringify (v, null, 2)] for
      a value [v] built by the module.  It is represented by the value that
      [JSON.parse] reads back from that text ([JSON_stringify] below), which
      is [v] without its [undefined] members.
    - [JSON.parse] of text that comes from outside (the deployment's
      selector) and the wording of its [SyntaxError] are parameters. *)

From Stdlib Require Import String Ascii List ZArith NArith Bool Lia DecimalString.
From Stdlib Require Import Permutation.
Import ListNotations.
Open Scope string_scope.

Set Warnings "-register-all".

(** ** String primitives of the host language *)

Module Str.

(** [s.startsWith(p)], returning what follows [p]. *)
Fixpoint drop_prefix (p s : string) : option string :=
  match p, s with
  | EmptyString, _ => Some s
  | String _ _, EmptyString => None
  | String a p', String b s' =>
      if Ascii.eqb a b then drop_prefix p' s' else None
  end.

Definition starts_with (p s : string) : bool :=
  match drop_prefix p s with Some _ => true | None => false end.

(** [s.includes(sub)] *)
Fixpoint includes (sub s : string) : bool :=
  starts_with sub s ||
  match s with
  | EmptyString => false
  | String _ s' => includes sub s'
  end.

(** White space removed by [String.prototype.trim] (ASCII part). *)
Definition is_space (c : ascii) : bool :=
  let n := nat_of_ascii c in
  Nat.eqb n 32 || (Nat.leb 9 n && Nat.leb n 13).

Fixpoint trim_start (s : string) : string :=
  match s with
  | String c s' => if is_space c then trim_start s' else s
  | EmptyString => EmptyString
  end.

Fixpoint trim_end (s : string) : string :=
  match s with
  | EmptyString => EmptyString
  | String c s' =>
      match trim_end s' with
      | EmptyString => if is_space c then EmptyString else String c EmptyString
      | t => String c t
      end
  end.

(** [s.trim()] *)
Definition trim (s : string) : string := trim_end (trim_start s).

(** [s.split(sep)] for a one-character separator: one piece per
    occurrence of the separator plus one, empty pieces included. *)
Fixpoint split (sep : ascii) (s : string) : list string :=
  match s with
  | EmptyString => [EmptyString]
  | String c s' =>
      if Ascii.eqb c sep then EmptyString :: split sep s'
      else match split sep s' with
           | h :: t => String c h :: t
           | [] => [String c EmptyString]
           end
  end.

(** [l.join(sep)] on an array of strings. *)
Fixpoint join (sep : string) (l : list string) : string :=
  match l with
  | [] => EmptyString
  | [x] => x
  | x :: t => x ++ sep ++ join sep t
  end.

Definition lower_char (c : ascii) : ascii :=
  let n := nat_of_ascii c in
  if Nat.leb 65 n && Nat.leb n 90 then ascii_of_nat (n + 32) else c.

(** [s.toLowerCase()] *)
Fixpoint toLowerCase (s : string) : string :=
  match s with
  | EmptyString => EmptyString
  | String c s' => String (lower_char c) (toLowerCase s')
  end.

Definition squote_char : ascii := ascii_of_nat 39.
Definition dquote_char : ascii := ascii_of_nat 34.

(** The double quote, as a one-character string. *)
Definition dquote : string := String dquote_char EmptyString.

(** [s.replace(re, q)] where [re] is the global pattern matching each
    single quote and [q] is the double quote. *)
Fixpoint replace_quotes (s : string) : string :=
  match s with
  | EmptyString => EmptyString
  | String c s' =>
      String (if Ascii.eqb c squote_char then dquote_char else c)
             (replace_quotes s')
  end.

(** Longest prefix free of [stop], and what follows it. *)
Fixpoint span_not (stop : ascii) (s : string) : string * string :=
  match s with
  | EmptyString => (EmptyString, EmptyString)
  | String c s' =>
      if Ascii.eqb c stop then (EmptyString, s)
      else let (g, r) := span_not stop s' in (String c g, r)
  end.

(** One attempt of the pattern [lit([^stop]+)] at the start of [s],
    followed by the character [stop] itself when [closed] is set.  The
    group is greedy; giving back characters never helps, as the character
    after a shorter group is not [stop]. *)
Definition match_here (lit : string) (stop : ascii) (closed : bool)
    (s : string) : option string :=
  match drop_prefix lit s with
  | None => None
  | Some rest =>
      match span_not stop rest with
      | (EmptyString, _) => None
      | (g, String _ _) => Some g
      | (g, EmptyString) => if closed then None else Some g
      end
  end.

(** [s.match(/lit([^stop]+)/)], group 1 of the leftmost match. *)
Fixpoint search (lit : string) (stop : ascii) (closed : bool)
    (s : string) : option string :=
  match match_here lit stop closed s with
  | Some g => Some g
  | None =>
      match s with
      | EmptyString => None
      | String _ s' => search lit stop closed s'
      end
  end.

(** Template-literal rendering of an integer. *)
Definition of_Z (z : Z) : string := NilZero.string_of_int (Z.to_int z).

End Str.

(** ** Values, plain objects and serialisation *)

Module Json.

Inductive JSValue : Type :=
| JUndefined
| JNull
| JBool (b : bool)
| JNum (z : Z)
| JStr (s : string)
| JArr (l : list JSValue)
| JObj (o : list (string * JSValue)).

(** A plain object: its own enumerable properties, in the order in which
    [Object.entries], [for-in] and [JSON.stringify] visit them. *)
Definition JSObject : Type := list (string * JSValue).

(** Value of a canonical decimal numeral without leading zero. *)
Fixpoint digits_value (acc : N) (s : string) : option N :=
  match s with
  | EmptyString => Some acc
  | String c s' =>
      let n := N_of_ascii c in
      if (48 <=? n)%N && (n <=? 57)%N
      then digits_value (acc * 10 + (n - 48))%N s'
      else None
  end.

(** Array-index keys (canonical numerals below 2^32 - 1): an object lists
    them first, in ascending numeric order, before its other keys. *)
Definition array_index (k : string) : option N :=
  match k with
  | EmptyString => None
  | String c rest =>
      if Ascii.eqb c "0"%char && negb (String.eqb rest EmptyString) then None
      else match digits_value 0%N k with
           | Some n => if (n <? 4294967295)%N then Some n else None
           | None => None
           end
  end.

Fixpoint has_key (k : string) (o : JSObject) : bool :=
  match o with
  | [] => false
  | (k', _) :: o' => String.eqb k k' || has_key k o'
  end.

(** Property read [o[k]] on own properties. *)
Fixpoint get (k : string) (o : JSObject) : JSValue :=
  match o with
  | [] => JUndefined
  | (k', v) :: o' => if String.eqb k k' then v else get k o'
  end.

Fixpoint overwrite (k : string) (v : JSValue) (o : JSObject) : JSObject :=
  match o with
  | [] => []
  | (k', v') :: o' =>
      if String.eqb k k' then (k', v) :: o' else (k', v') :: overwrite k v o'
  end.

(** Position of a new array-index key: after the smaller index keys. *)
Fixpoint insert_index (n : N) (k : string) (v : JSValue) (o : JSObject)
    : JSObject :=
  match o with
  | [] => [(k, v)]
  | (k', v') :: o' =>
      match array_index k' with
      | Some m => if (m <? n)%N then (k', v') :: insert_index n k v o'
                  else (k, v) :: o
      | None => (k, v) :: o
      end
  end.

(** Assignment [o[k] = v] on an object created by the literal [{}].
    The key [__proto__] reaches the accessor inherited from
    [Object.prototype] and creates no own property. *)
Definition set (k : string) (v : JSValue) (o : JSObject) : JSObject :=
  if String.eqb k "__proto__" then o
  else if has_key k o then overwrite k v o
  else match array_index k with
       | Some n => insert_index n k v o
       | None => (o ++ [(k, v)])%list
       end.

Definition keys (o : JSObject) : list string := map fst o.

(** Member access [v.k]; [None] when the access itself throws. *)
Definition member (k : string) (v : JSValue) : option JSValue :=
  match v with
  | JUndefined | JNull => None
  | JObj o => Some (get k o)
  | _ => Some JUndefined
  end.

(** What [JSON.stringify] keeps of a value: members whose value is
    [undefined] are left out of objects and written [null] in arrays. *)
Fixpoint norm (v : JSValue) : JSValue :=
  match v with
  | JArr l =>
      JArr (map (fun x => match x with JUndefined => JNull | _ => norm x end) l)
  | JObj o =>
      JObj ((fix members (o : list (string * JSValue)) :=
               match o with
               | [] => []
               | (k, JUndefined) :: o' => members o'
               | (k, x) :: o' => (k, norm x) :: members o'
               end) o)
  | _ => v
  end.

(** The text produced by [JSON.stringify (v, null, 2)], represented by the
    value a JSON parser reads back from it. *)
Record Text : Type := Serialized { parsed : JSValue }.

Definition JSON_stringify (v : JSValue) : Text := Serialized (norm v).

(** [JSON.parse] applied to a text produced by [JSON_stringify]. *)
Definition JSON_parse_text (t : Text) : JSValue := parsed t.

(** Template-literal rendering [`${v}`]. *)
Fixpoint to_string (v : JSValue) : string :=
  match v with
  | JUndefined => "undefined"
  | JNull => "null"
  | JBool true => "true"
  | JBool false => "false"
  | JNum z => Str.of_Z z
  | JStr s => s
  | JArr l =>
      Str.join ","
        (map (fun x => match x with
                       | JUndefined | JNull => EmptyString
                       | _ => to_string x
                       end) l)
  | JObj _ => "[object Object]"
  end.

Fixpoint indexed {A : Type} (i : nat) (l : list A) : list (string * A) :=
  match l with
  | [] => []
  | x :: l' => (Str.of_Z (Z.of_nat i), x) :: indexed (S i) l'
  end.

Fixpoint chars (s : string) : list JSValue :=
  match s with
  | EmptyString => []
  | String c s' => JStr (String c EmptyString) :: chars s'
  end.

(** [Object.entries(v)]; [None] when it throws (undefined and null). *)
Definition Object_entries (v : JSValue) : option (list (string * JSValue)) :=
  match v with
  | JUndefined | JNull => None
  | JObj o => Some o
  | JArr l => Some (indexed 0 l)
  | JStr s => Some (indexed 0 (chars s))
  | JBool _ | JNum _ => Some []
  end.

End Json.

Import Json.

(** ** Requests, responses, errors *)

(** The [input] argument of [kubectlLogs].  Optional fields are options;
    for the three flags [false] also stands for an absent field. *)
Record Input : Type := mkInput {
  resourceType : string;
  name : string;
  namespace : string;
  container : option string;
  tail : option Z;
  since : option string;
  sinceTime : option string;
  timestamps : bool;
  previous : bool;
  follow : bool;
  labelSelector : option string;
  context : string
}.

Record ContentItem : Type := mkContent { type : string; text : Text }.

(** A tool response; [isError = false] stands for a response without the
    [isError] property. *)
Record ToolResult : Type := mkResult {
  content : list ContentItem;
  isError : bool
}.

Inductive ErrorCode : Type := InvalidRequest | InternalError.

(** A thrown value, as far as the module inspects it: whether it is an
    [McpError] (kept with the code and the message given to its constructor),
    its [message], and its [status] property if it has one. *)
Inductive Thrown : Type :=
| Error (status : option Z) (message : string)
| McpError (code : ErrorCode) (message : string).

Definition error_status (e : Thrown) : option Z :=
  match e with Error st _ => st | McpError _ _ => None end.

Definition error_message (e : Thrown) : string :=
  match e with Error _ m => m | McpError _ m => m end.

(** What one invocation of the external program gives. *)
Inductive ExecResult : Type :=
| Stdout (out : string)
| Fails (status : option Z) (message : string).

(** An optional string that is present and not empty (JavaScript truthiness). *)
Definition truthy (o : option string) : option string :=
  match o with
  | Some EmptyString => None
  | _ => o
  end.

(** ** Computations: a trace of external calls, and exceptions *)

Definition Trace : Type := list (list string).

Definition M (A : Type) : Type := Trace -> (Thrown + A) * Trace.

Definition ret {A : Type} (a : A) : M A := fun t => (inr a, t).

Definition throw {A : Type} (e : Thrown) : M A := fun t => (inl e, t).

Definition bind {A B : Type} (m : M A) (k : A -> M B) : M B :=
  fun t => match m t with
           | (inr a, t') => k a t'
           | (inl e, t') => (inl e, t')
           end.

(** [try { m } catch (error) { h error }] *)
Definition try_catch {A : Type} (m : M A) (h : Thrown -> M A) : M A :=
  fun t => match m t with
           | (inl e, t') => h e t'
           | r => r
           end.

Notation "x <- m ;; k" := (bind m (fun x => k))
  (at level 61, m at next level, right associativity).

(** Running a request from an empty trace. *)
Definition run {A : Type} (m : M A) : (Thrown + A) * Trace := m [].

(** ** The classifier and the formatting helpers (pure) *)

Definition text_content (v : JSValue) : list ContentItem :=
  [mkContent "text" (JSON_stringify v)].

(** [formatLogOutput] *)
Definition formatLogOutput (resourceName logOutput : string) : ToolResult :=
  mkResult (text_content (JObj [("name", JStr resourceName);
                                ("logs", JStr logOutput)])) false.

(** The three patterns of [handleCommandError]. *)
Definition podNameMatch (m : string) : option string :=
  Str.search "for pod " ","%char false m.

Definition containersMatch (m : string) : option string :=
  Str.search "choose one of: [" "]"%char true m.

Definition initContainersMatch (m : string) : option string :=
  Str.search "or one of the init containers: [" "]"%char true m.

(** [g.split(" ").map(c => c.trim())] on a matched group, [[]] without one. *)
Definition container_list (g : option string) : list string :=
  match g with
  | Some s => map Str.trim (Str.split " "%char s)
  | None => []
  end.

Definition suggestion (containers initContainers : list string) : string :=
  "Please specify a container name using the 'container' parameter. Available containers: "
  ++ Str.join ", " containers
  ++ (if Nat.ltb 0 (length initContainers)
      then ". Init containers: " ++ Str.join ", " initContainers
      else "").

(** [handleCommandError]; the [console.error] line has no effect on the
    result and is left out. *)
Definition handleCommandError (error : Thrown) (resourceDescription : string)
    : ToolResult :=
  if match error_status error with Some st => Z.eqb st 404 | None => false end
     || Str.includes "not found" (error_message error)
  then
    mkResult (text_content
      (JObj [("error", JStr ("Resource " ++ resourceDescription ++ " not found"));
             ("status", JStr "not_found")])) true
  else if Str.includes "a container name must be specified" (error_message error)
  then
    let podName :=
      match podNameMatch (error_message error) with
      | Some p => p
      | None => "unknown"
      end in
    let containers := container_list (containersMatch (error_message error)) in
    let initContainers :=
      container_list (initContainersMatch (error_message error)) in
    mkResult (text_content
      (JObj [("error", JStr "Multi-container pod requires container specification");
             ("status", JStr "multi_container_error");
             ("pod_name", JStr podName);
             ("available_containers", JArr (map JStr containers));
             ("init_containers", JArr (map JStr initContainers));
             ("suggestion", JStr (suggestion containers initContainers))])) true
  else
    mkResult (text_content
      (JObj [("error", JStr ("Failed to get logs for " ++ resourceDescription
                             ++ ": " ++ error_message error));
             ("status", JStr "general_error");
             ("original_error", JStr (error_message error))])) true.

(** [args.push(x, ...)] *)
Definition push (args : list string) (xs : list string) : list string :=
  (args ++ xs)%list.

(** [addLogOptions] *)
Definition addLogOptions (args : list string) (input : Input) : list string :=
  let args := match tail input with
              | Some n => push args ["--tail=" ++ Str.of_Z n]
              | None => args
              end in
  let args := match truthy (since input) with
              | Some s => push args ["--since=" ++ s]
              | None => args
              end in
  let args := match truthy (sinceTime input) with
              | Some s => push args ["--since-time=" ++ s]
              | None => args
              end in
  let args := if timestamps input then push args ["--timestamps"] else args in
  let args := if previous input then push args ["--previous"] else args in
  let args := if follow input then push args ["--follow"] else args in
  args.

(** ** The effectful part: discovery, fan-out, resolution *)

Section Pipeline.

(** The external program: [execFileSync] of kubectl on an argument vector. *)
Variable exec : list string -> ExecResult.

(** [JSON.parse] on text received from the external program ([None] when it
    throws), and the message of the [SyntaxError] it then throws. *)
Variable JSON_parse : string -> option JSValue.
Variable SyntaxError_message : string -> string.

Definition execFileSync (args : list string) : M string :=
  fun t =>
    (match exec args with
     | Stdout out => inr out
     | Fails st m => inl (Error st m)
     end, (t ++ [args])%list).

Definition logs_args (context namespace pod : string) (input : Input)
    : list string :=
  let podArgs := ["--context"; context; "-n"; namespace; "logs"; pod] in
  let podArgs := match truthy (container input) with
                 | Some c => push podArgs ["-c"; c]
                 | None => podArgs
                 end in
  addLogOptions podArgs input.

(** The loop [for (const pod of pods)] of [getLabelSelectorLogs]. *)
Fixpoint fetch_each (context namespace : string) (input : Input)
    (pods : list string) (logsMap : JSObject) : M JSObject :=
  match pods with
  | [] => ret logsMap
  | pod :: rest =>
      if String.eqb pod "" then fetch_each context namespace input rest logsMap
      else
        logsMap' <-
          try_catch
            (logs <- execFileSync (logs_args context namespace pod input) ;;
             ret (Json.set pod (JStr logs) logsMap))
            (fun error =>
               ret (Json.set pod (JStr ("Error: " ++ error_message error))
                             logsMap)) ;;
        fetch_each context namespace input rest logsMap'
  end.

Definition pods_args (context namespace labelSelector : string) : list string :=
  ["--context"; context; "-n"; namespace; "get"; "pods";
   "--selector=" ++ labelSelector; "-o";
   "jsonpath='{.items[*].metadata.name}'"].

(** The test [l.length === 0 || (l.length === 1 && l[0] === "")]. *)
Definition nothing_listed (l : list string) : bool :=
  Nat.eqb (length l) 0 ||
  (Nat.eqb (length l) 1 && String.eqb (nth 0 l "") "").

Definition no_pods_message (labelSelector namespace : string) : string :=
  "No pods found with label selector " ++ Str.dquote ++ labelSelector
  ++ Str.dquote ++ " in namespace " ++ namespace.

(** [getLabelSelectorLogs] *)
Definition getLabelSelectorLogs (labelSelector namespace : string)
    (input : Input) (context : string) : M ToolResult :=
  try_catch
    (out <- execFileSync (pods_args context namespace labelSelector) ;;
     let pods := Str.split " "%char (Str.trim out) in
     if nothing_listed pods then
       ret (mkResult (text_content
              (JObj [("message", JStr (no_pods_message labelSelector namespace))]))
              false)
     else
       logsMap <- fetch_each context namespace input pods [] ;;
       ret (mkResult (text_content
              (JObj [("selector", JStr labelSelector);
                     ("namespace", JStr namespace);
                     ("logs", JObj logsMap)])) false))
    (fun error =>
       ret (handleCommandError error
              ("pods with selector " ++ Str.dquote ++ labelSelector
               ++ Str.dquote))).

(** [JSON.parse (result.content[0].text).logs]; the accesses that would
    throw a [TypeError] are kept as throws. *)
Definition logs_of_result (result : ToolResult) : M JSValue :=
  match content result with
  | [] => throw (Error None "Cannot read properties of undefined (reading 'text')")
  | item :: _ =>
      match Json.member "logs" (JSON_parse_text (text item)) with
      | Some v => ret v
      | None => throw (Error None "Cannot read properties of null (reading 'logs')")
      end
  end.

(** The loop [for (const job of jobs)] of the cronjob branch. *)
Fixpoint collect_jobs (context namespace : string) (input : Input)
    (jobs : list string) (allJobLogs : JSObject) : M JSObject :=
  match jobs with
  | [] => ret allJobLogs
  | job :: rest =>
      result <- getLabelSelectorLogs ("job-name=" ++ job) namespace input context ;;
      logs <- logs_of_result result ;;
      collect_jobs context namespace input rest (Json.set job logs allJobLogs)
  end.

Definition jobs_args (context namespace name : string) : list string :=
  ["--context"; context; "-n"; namespace; "get"; "jobs";
   "--selector=job-name=" ++ name; "-o";
   "jsonpath='{.items[*].metadata.name}'"].

Definition no_jobs_message (name namespace : string) : string :=
  "No jobs found for cronjob " ++ name ++ " in namespace " ++ namespace.

(** The cronjob branch of [kubectlLogs]. *)
Definition cronjob_logs (name namespace : string) (input : Input)
    (context : string) : M ToolResult :=
  try_catch
    (out <- execFileSync (jobs_args context namespace name) ;;
     let jobs := Str.split " "%char (Str.trim out) in
     if nothing_listed jobs then
       ret (mkResult (text_content
              (JObj [("message", JStr (no_jobs_message name namespace))])) false)
     else
       allJobLogs <- collect_jobs context namespace input jobs [] ;;
       ret (mkResult (text_content
              (JObj [("cronjob", JStr name);
                     ("namespace", JStr namespace);
                     ("jobs", JObj allJobLogs)])) false))
    (fun error => ret (handleCommandError error ("cronjob " ++ name))).

Definition selector_args (context namespace name : string) : list string :=
  ["--context"; context; "-n"; namespace; "get"; "deployment"; name; "-o";
   "jsonpath='{.spec.selector.matchLabels}'"].

(** [Object.entries(selector).map(([key, value]) => `${key}=${value}`).join(",")] *)
Definition render_selector (entries : list (string * JSValue)) : string :=
  Str.join "," (map (fun kv => fst kv ++ "=" ++ Json.to_string (snd kv)) entries).

(** The label selector derived from the text printed for a deployment. *)
Definition deployment_selector (selectorJson : string) : M string :=
  match JSON_parse (Str.replace_quotes selectorJson) with
  | None => throw (Error None (SyntaxError_message (Str.replace_quotes selectorJson)))
  | Some selector =>
      match Json.Object_entries selector with
      | None => throw (Error None "Cannot convert undefined or null to object")
      | Some entries => ret (render_selector entries)
      end
  end.

(** The block [try { if (resourceType === "deployment") ... }] that follows
    the choice of [selectorArgs]. *)
Definition after_selector (resourceType name namespace : string)
    (input : Input) (context : string) (selectorArgs : option (list string))
    : M ToolResult :=
  try_catch
    (if String.eqb resourceType "deployment" then
       match selectorArgs with
       | None => throw (Error None "Selector command is undefined")
       | Some args =>
           out <- execFileSync args ;;
           labelSelector <- deployment_selector (Str.trim out) ;;
           getLabelSelectorLogs labelSelector namespace input context
       end
     else
       ret (mkResult (text_content
              (JObj [("error", JStr ("Unexpected resource type: " ++ resourceType))]))
              true))
    (fun error =>
       ret (handleCommandError error (resourceType ++ " " ++ name))).

(** [kubectlLogs]; the manager argument is not used by the function. *)
Definition kubectlLogs (input : Input) : M ToolResult :=
  try_catch
    (let resourceType := Str.toLowerCase (resourceType input) in
     let name := name input in
     let namespace :=
       if String.eqb (namespace input) "" then "default" else namespace input in
     let context := context input in
     if String.eqb resourceType "pod" then
       try_catch
         (result <- execFileSync (logs_args context namespace name input) ;;
          ret (formatLogOutput name result))
         (fun error => ret (handleCommandError error ("pod " ++ name)))
     else if String.eqb resourceType "deployment"
             || String.eqb resourceType "job"
             || String.eqb resourceType "cronjob" then
       let selectorArgs :=
         if String.eqb resourceType "deployment"
         then Some (selector_args context namespace name) else None in
       if String.eqb resourceType "deployment" then
         after_selector resourceType name namespace input context selectorArgs
       else if String.eqb resourceType "job" then
         getLabelSelectorLogs ("job-name=" ++ name) namespace input context
       else if String.eqb resourceType "cronjob" then
         cronjob_logs name namespace input context
       else
         after_selector resourceType name namespace input context selectorArgs
     else
       match truthy (labelSelector input) with
       | Some sel => getLabelSelectorLogs sel namespace input context
       | None =>
           throw (McpError InvalidRequest
                    ("Unsupported resource type: " ++ resourceType))
       end)
    (fun error =>
       match error with
       | McpError _ _ => throw error
       | Error _ m => throw (McpError InternalError ("Failed to get logs: " ++ m))
       end).

End Pipeline.

(** ** Reading a response *)

(** The document carried by a response: what a client parses from the text
    of its first content item. *)
Definition document (r : ToolResult) : JSValue :=
  match content r with
  | item :: _ => JSON_parse_text (text item)
  | [] => JUndefined
  end.

(** A member of the response document ([undefined] when it has none). *)
Definition field (k : string) (r : ToolResult) : JSValue :=
  match document r with
  | JObj o => Json.get k o
  | _ => JUndefined
  end.

(** Own keys of an object value, none for any other value. *)
Definition keys_of (v : JSValue) : list string :=
  match v with
  | JObj o => Json.keys o
  | _ => []
  end.

(** The identifier keys of a report: the pods of a flat report, or the jobs
    of a cronjob report each with the pods under it. *)
Definition identifier_keys (r : ToolResult) : list string * list (string * list string) :=
  (keys_of (field "logs" r),
   match field "jobs" r with
   | JObj jobs => map (fun kv => (fst kv, keys_of (snd kv))) jobs
   | _ => []
   end).

(** The classification a response carries: its [status] member together
    with the [isError] flag. *)
Definition classification (r : ToolResult) : JSValue * bool :=
  (field "status" r, isError r).

Definition nonempty (s : string) : bool := negb (String.eqb s "").

(** The pod (or job) names a listing output stands for: the pieces of the
    trimmed output between single spaces, the empty pieces being skipped. *)
Definition discovered (out : string) : list string :=
  filter nonempty (Str.split " "%char (Str.trim out)).

(** An oracle given by a finite table, for concrete runs. *)
Fixpoint args_eqb (a b : list string) : bool :=
  match a, b with
  | [], [] => true
  | x :: a', y :: b' => String.eqb x y && args_eqb a' b'
  | _, _ => false
  end.

Fixpoint table_exec (tbl : list (list string * ExecResult)) (otherwise : ExecResult)
    (args : list string) : ExecResult :=
  match tbl with
  | [] => otherwise
  | (a, r) :: tbl' => if args_eqb a args then r else table_exec tbl' otherwise args
  end.

(** A parser that knows one text only, for concrete runs. *)
Definition parse_only (known : string) (v : JSValue) (s : string) : option JSValue :=
  if String.eqb s known then Some v else None.

(** ** Notions used by the statements *)

(** Whether the log fetch of one pod fails, and the text the fan-out
    records for the pod. *)
Definition fetch_fails (exec : list string -> ExecResult)
    (context namespace : string) (input : Input) (pod : string) : bool :=
  match exec (logs_args context namespace pod input) with
  | Fails _ _ => true
  | Stdout _ => false
  end.

Definition entry_text (exec : list string -> ExecResult)
    (context namespace : string) (input : Input) (pod : string) : string :=
  match exec (logs_args context namespace pod input) with
  | Stdout logs => logs
  | Fails _ m => "Error: " ++ m
  end.

(** A classified failure: a document the classifier produces for some
    error and resource description. *)
Definition classified_failure (v : JSValue) : Prop :=
  exists error desc, document (handleCommandError error desc) = v.

Fixpoint contains_char (c : ascii) (s : string) : bool :=
  match s with
  | EmptyString => false
  | String a s' => Ascii.eqb a c || contains_char c s'
  end.



(** The four resource types [kubectlLogs] tests for. *)
Definition named_type (resourceType : string) : bool :=
  String.eqb resourceType "pod" || String.eqb resourceType "deployment"
  || String.eqb resourceType "job" || String.eqb resourceType "cronjob".

(** The namespace a request is run in. *)
Definition namespace_of (input : Input) : string :=
  if String.eqb (namespace input) "" then "default" else namespace input.

(** A computation whose effect on the trace is to append the calls it
    makes, independently of the calls made before. *)
Definition framed {A : Type} (m : M A) : Prop :=
  forall t, m t = (fst (m []), (t ++ snd (m []))%list).

(** Two oracles give the same result for every call of a trace. *)
Definition agree_on (exec1 exec2 : list string -> ExecResult) (t : Trace) : Prop :=
  forall args, In args t -> exec1 args = exec2 args.

(** Two computations coincide wherever the oracles agree on the calls the
    first one makes, and the first one only ever extends the trace. *)
Definition coincide (exec1 exec2 : list string -> ExecResult) {A : Type}
    (m1 m2 : M A) : Prop :=
  forall t,
    (exists t', snd (m1 t) = (t ++ t')%list) /\
    (agree_on exec1 exec2 (snd (m1 t)) -> m1 t = m2 t).

(** A response whose text is a serialised object. *)
Definition object_response (r : ToolResult) : Prop :=
  exists o, content r = [mkContent "text" (Serialized (JObj o))].

(** What the cronjob branch stores for one job: the [logs] member of the
    flat report of the job's pods. *)
Definition job_logs (exec : list string -> ExecResult)
    (context namespace : string) (input : Input) (job : string) : JSValue :=
  match fst (run (getLabelSelectorLogs exec ("job-name=" ++ job) namespace input context)) with
  | inr r => field "logs" r
  | inl _ => JUndefined
  end.

(** The external calls made for one job of a cronjob. *)
Definition job_calls (exec : list string -> ExecResult)
    (context namespace : string) (input : Input) (job : string) : Trace :=
  snd (run (getLabelSelectorLogs exec ("job-name=" ++ job) namespace input context)).

(** ** Concrete failures, requests and oracles *)





(** A failure that carries both the not-found marker and the
    multi-container marker. *)
Definition both_markers_failure : Thrown :=
  Error (Some 1%Z)
    "pod web-1 not found: a container name must be specified for pod web-1, choose one of: [app sidecar]".

(** A request with no option set, in the default namespace. *)
Definition plain_input (resourceType name : string) (labelSelector : option string)
    : Input :=
  mkInput resourceType name "" None None None None false false false
          labelSelector "ctx".

Definition unexpected_call : ExecResult := Fails None "unexpected call".

(** One pod [a] behind the selector [app=x]; its log fetch fails. *)
Definition one_failing_pod : list string -> ExecResult :=
  table_exec
    [(pods_args "ctx" "default" "app=x", Stdout "a");
     (logs_args "ctx" "default" "a" (plain_input "pod" "" None),
      Fails (Some 1%Z) "pods a not found")]
    unexpected_call.

(** Three pods behind the selector [app=x]; the fetch of [b] fails. *)
Definition three_pods : list string -> ExecResult :=
  table_exec
    [(pods_args "ctx" "default" "app=x", Stdout "a b c");
     (logs_args "ctx" "default" "a" (plain_input "pod" "" None), Stdout "log of a");
     (logs_args "ctx" "default" "b" (plain_input "pod" "" None),
      Fails (Some 1%Z) "container is waiting");
     (logs_args "ctx" "default" "c" (plain_input "pod" "" None), Stdout "log of c")]
    unexpected_call.

(** No pod behind the selector [app=x]: the listing prints nothing. *)
Definition no_pods : list string -> ExecResult :=
  table_exec [(pods_args "ctx" "default" "app=x", Stdout "")] unexpected_call.

(** A deployment [web] whose match-labels are printed with single quotes,
    one pod behind the derived selector. *)
Definition web_labels_text : string := "{'app':'x','tier':'web'}".

Definition web_labels : JSValue := JObj [("app", JStr "x"); ("tier", JStr "web")].

Definition web_deployment : list string -> ExecResult :=
  table_exec
    [(selector_args "ctx" "default" "web", Stdout web_labels_text);
     (pods_args "ctx" "default" "app=x,tier=web", Stdout "p1");
     (logs_args "ctx" "default" "p1" (plain_input "pod" "" None), Stdout "hello")]
    unexpected_call.

(** No deployment [web]: the read fails the way the server reports it. *)
Definition missing_deployment : list string -> ExecResult :=
  table_exec
    [(selector_args "ctx" "default" "web",
      Fails (Some 1%Z) "Error from server (NotFound): deployments.apps web not found")]
    unexpected_call.


(** A cronjob [nightly] with two jobs: [j1] has one pod, [j2] has none. *)
Definition cron_two_jobs : list string -> ExecResult :=
  table_exec
    [(jobs_args "ctx" "default" "nightly", Stdout "j1 j2");
     (pods_args "ctx" "default" "job-name=j1", Stdout "p1");
     (logs_args "ctx" "default" "p1" (plain_input "pod" "" None), Stdout "done");
     (pods_args "ctx" "default" "job-name=j2", Stdout "")]
    unexpected_call.

Definition no_parser (s : string) : option JSValue := None.

Definition no_wording (s : string) : string := "Unexpected token".

(** The world of [three_pods] as far as a request for [app=x] looks at it,
    and different everywhere else. *)
Definition three_pods_elsewhere : list string -> ExecResult :=
  table_exec
    [(pods_args "ctx" "default" "app=x", Stdout "a b c");
     (logs_args "ctx" "default" "a" (plain_input "pod" "" None), Stdout "log of a");
     (logs_args "ctx" "default" "b" (plain_input "pod" "" None),
      Fails (Some 1%Z) "container is waiting");
     (logs_args "ctx" "default" "c" (plain_input "pod" "" None), Stdout "log of c")]
    (Stdout "something else").

(** Decides the tests of a known resource type against the four names. *)
Ltac decide_type rt :=
  let p := eval compute in (String.eqb rt "pod") in
  let d := eval compute in (String.eqb rt "deployment") in
  let j := eval compute in (String.eqb rt "job") in
  let c := eval compute in (String.eqb rt "cronjob") in
  change (String.eqb rt "pod") with p;
  change (String.eqb rt "deployment") with d;
  change (String.eqb rt "job") with j;
  change (String.eqb rt "cronjob") with c;
  cbn [orb andb].

(** ** Further notions and concrete worlds *)

(** Two requests ask for the same fetch: same container and same log
    options, an empty string counting as no value where the code tests for
    truthiness. *)
Definition same_fetch_options (i1 i2 : Input) : Prop :=
  truthy (container i1) = truthy (container i2) /\
  tail i1 = tail i2 /\
  truthy (since i1) = truthy (since i2) /\
  truthy (sinceTime i1) = truthy (sinceTime i2) /\
  timestamps i1 = timestamps i2 /\
  previous i1 = previous i2 /\
  follow i1 = follow i2.

(** Two requests that [kubectlLogs] cannot tell apart: same resource type up
    to letter case, same name, context and effective namespace, same label
    selector up to emptiness, same fetch. *)
Definition same_request (i1 i2 : Input) : Prop :=
  Str.toLowerCase (resourceType i1) = Str.toLowerCase (resourceType i2) /\
  name i1 = name i2 /\
  namespace_of i1 = namespace_of i2 /\
  context i1 = context i2 /\
  truthy (labelSelector i1) = truthy (labelSelector i2) /\
  same_fetch_options i1 i2.

(** The pod [a] is listed twice behind the selector [app=x]. *)
Definition repeated_pod : list string -> ExecResult :=
  table_exec
    [(pods_args "ctx" "default" "app=x", Stdout "a a b");
     (logs_args "ctx" "default" "a" (plain_input "pod" "" None), Stdout "log of a");
     (logs_args "ctx" "default" "b" (plain_input "pod" "" None), Stdout "log of b")]
    unexpected_call.

(** A cronjob [nightly] with two jobs: the pods of [j1] cannot be listed,
    [j2] has one pod. *)
Definition cron_unlistable_job : list string -> ExecResult :=
  table_exec
    [(jobs_args "ctx" "default" "nightly", Stdout "j1 j2");
     (pods_args "ctx" "default" "job-name=j1", Fails (Some 1%Z) "connection refused");
     (pods_args "ctx" "default" "job-name=j2", Stdout "p2");
     (logs_args "ctx" "default" "p2" (plain_input "pod" "" None), Stdout "done")]
    unexpected_call.

(** A jobs listing with two spaces between the names. *)
Definition cron_double_space : list string -> ExecResult :=
  table_exec
    [(jobs_args "ctx" "default" "nightly", Stdout "j1  j2")]
    unexpected_call.

(** The pods of the job [backup], and one pod [p1]. *)
Definition backup_job : list string -> ExecResult :=
  table_exec
    [(pods_args "ctx" "default" "job-name=backup", Stdout "p1");
     (logs_args "ctx" "default" "p1" (plain_input "pod" "" None), Stdout "done")]
    unexpected_call.

(** ** The other tools *)

(** The [message] property of a thrown value when the message the SDK's
    constructor gives to [new McpError(code, text)] is [fmt code text]. *)
Definition message_of (fmt : ErrorCode -> string -> string) (e : Thrown) : string :=
  match e with
  | Error _ m => m
  | McpError c m => fmt c m
  end.

(** [x || d] on an optional string. *)
Definition or_default (o : option string) (d : string) : string :=
  match truthy o with
  | Some s => s
  | None => d
  end.

(** A response whose text is passed on as it came. *)
Record RawItem : Type := mkRawItem { raw_type : string; raw_text : string }.

Record RawResult : Type := mkRawResult { raw_content : list RawItem }.

(** *** kubectl_scale *)

Module Scale.

Record Input : Type := mkInput {
  name : string;
  namespace : option string;
  replicas : Z;
  resourceType : option string;
  context : string
}.

Record Item : Type := mkItem { success : bool; message : string }.

Record Result : Type := mkResult { content : list Item }.



End Scale.

(** *** explain_resource and list_api_resources *)

(** [executeKubectlCommand]: the context is put in front of the arguments. *)
Definition executeKubectlCommand (exec : list string -> ExecResult)
    (args : list string) (context : string) : M string :=
  try_catch
    (execFileSync exec ("--context" :: context :: args))
    (fun error => throw (Error None ("Kubectl command failed: " ++ error_message error))).

Module Explain.

Record Params : Type := mkParams {
  resource : string;
  apiVersion : option string;
  recursive : bool;
  output : option string;
  context : string
}.

Definition explain_args (params : Params) : list string :=
  let args := ["explain"] in
  let args := match truthy (apiVersion params) with
              | Some v => push args ["--api-version=" ++ v]
              | None => args
              end in
  let args := if recursive params then push args ["--recursive"] else args in
  let args := match truthy (output params) with
              | Some o => push args ["--output=" ++ o]
              | None => args
              end in
  push args [resource params].

(** [explainResource] *)
Definition explainResource (exec : list string -> ExecResult) (params : Params)
    : M RawResult :=
  try_catch
    (result <- executeKubectlCommand exec (explain_args params) (context params) ;;
     ret (mkRawResult [mkRawItem "text" result]))
    (fun error =>
       throw (Error None ("Failed to explain resource: " ++ error_message error))).

End Explain.

Module ApiResources.

Record Params : Type := mkParams {
  apiGroup : option string;
  namespaced : option bool;
  verbs : option (list string);
  output : option string;
  context : string
}.

Definition api_resources_args (params : Params) : list string :=
  let args := ["api-resources"] in
  let args := match truthy (apiGroup params) with
              | Some g => push args ["--api-group=" ++ g]
              | None => args
              end in
  let args := match namespaced params with
              | Some b => push args ["--namespaced=" ++ (if b then "true" else "false")]
              | None => args
              end in
  let args := match verbs params with
              | Some (v :: vs) => push args ["--verbs=" ++ Str.join "," (v :: vs)]
              | _ => args
              end in
  let args := match truthy (output params) with
              | Some o => push args ["-o"; o]
              | None => args
              end in
  args.

(** [listApiResources] *)
Definition listApiResources (exec : list string -> ExecResult) (params : Params)
    : M RawResult :=
  try_catch
    (result <- executeKubectlCommand exec (api_resources_args params) (context params) ;;
     ret (mkRawResult [mkRawItem "text" result]))
    (fun error =>
       throw (Error None ("Failed to list API resources: " ++ error_message error))).

End ApiResources.

(** *** kubectl_get *)

(** Truthiness of a value, [a || b], [a?.k] and [a.k] where [a] is known
    not to be null or undefined. *)
Definition js_truthy (v : JSValue) : bool :=
  match v with
  | JUndefined | JNull => false
  | JBool b => b
  | JNum z => negb (Z.eqb z 0)
  | JStr s => negb (String.eqb s "")
  | JArr _ | JObj _ => true
  end.

Definition js_or (a b : JSValue) : JSValue := if js_truthy a then a else b.

Definition opt_member (k : string) (v : JSValue) : JSValue :=
  match Json.member k v with
  | Some x => x
  | None => JUndefined
  end.

Definition is_undefined (v : JSValue) : bool :=
  match v with JUndefined => true | _ => false end.

(** [v === "s"] *)
Definition is_string (s : string) (v : JSValue) : bool :=
  match v with JStr x => String.eqb x s | _ => false end.

(** [s.endsWith(suffix)] *)
Fixpoint ends_with (suffix s : string) : bool :=
  String.eqb s suffix ||
  match s with
  | EmptyString => false
  | String _ s' => ends_with suffix s'
  end.

Module Get.

Record Input : Type := mkInput {
  resourceType : string;
  name : option string;
  namespace : option string;
  output : option string;
  allNamespaces : bool;
  labelSelector : option string;
  fieldSelector : option string;
  sortBy : option string;
  context : string
}.

(** The text of a response: passed on as it came, or serialised. *)
Inductive Body : Type :=
| RawBody (s : string)
| JsonBody (t : Text).

Record Item : Type := mkItem { type : string; text : Body }.

Record Result : Type := mkResult { content : list Item; isError : bool }.

(** [isNonNamespacedResource] *)
Definition isNonNamespacedResource (resourceType : string) : bool :=
  existsb (String.eqb (Str.toLowerCase resourceType))
    ["nodes"; "node"; "no"; "namespaces"; "namespace"; "ns";
     "persistentvolumes"; "pv"; "storageclasses"; "sc"; "clusterroles";
     "clusterrolebindings"; "customresourcedefinitions"; "crd"; "crds"].

(** [conditions.find(c => c.type === "Ready")] on the elements of an array:
    [None] when the callback throws, [Some None] when nothing is found. *)
Fixpoint find_ready (l : list JSValue) : option (option JSValue) :=
  match l with
  | [] => Some None
  | c :: rest =>
      match Json.member "type" c with
      | None => None
      | Some t => if is_string "Ready" t then Some (Some c) else find_ready rest
      end
  end.

(** [getResourceStatus]; [None] when it throws a [TypeError]. *)
Definition getResourceStatus (resource : JSValue) : option JSValue :=
  if negb (js_truthy resource) then Some (JStr "Unknown")
  else
    let status := opt_member "status" resource in
    if js_truthy (opt_member "phase" status) then Some (opt_member "phase" status)
    else if negb (is_undefined (opt_member "readyReplicas" status)) then
      let ready := js_or (opt_member "readyReplicas" status) (JNum 0) in
      let total := js_or (opt_member "replicas" status) (JNum 0) in
      Some (JStr (Json.to_string ready ++ "/" ++ Json.to_string total ++ " ready"))
    else if js_truthy (opt_member "type" (opt_member "spec" resource)) then
      Some (opt_member "type" (opt_member "spec" resource))
    else
      let rest :=
        if negb (is_undefined (opt_member "succeeded" status)) then
          Some (JStr (if js_truthy (opt_member "succeeded" status)
                      then "Completed" else "Running"))
        else if js_truthy (opt_member "phase" status) then
          Some (opt_member "phase" status)
        else Some (JStr "Active") in
      if js_truthy (opt_member "conditions" status) then
        match opt_member "conditions" status with
        | JArr l =>
            match find_ready l with
            | None => None
            | Some (Some readyCondition) =>
                Some (JStr (if is_string "True" (opt_member "status" readyCondition)
                            then "Ready" else "NotReady"))
            | Some None => rest
            end
        | _ => None
        end
      else rest.

(** One element of [formattedEvents]; [None] when the callback throws. *)
Definition format_event (event : JSValue) : option JSValue :=
  match Json.member "type" event with
  | None => None
  | Some _ =>
      let involved := opt_member "involvedObject" event in
      Some (JObj
        [("type", js_or (opt_member "type" event) (JStr ""));
         ("reason", js_or (opt_member "reason" event) (JStr ""));
         ("message", js_or (opt_member "message" event) (JStr ""));
         ("involvedObject",
          JObj [("kind", js_or (opt_member "kind" involved) (JStr ""));
                ("name", js_or (opt_member "name" involved) (JStr ""));
                ("namespace", js_or (opt_member "namespace" involved) (JStr ""))]);
         ("firstTimestamp", js_or (opt_member "firstTimestamp" event) (JStr ""));
         ("lastTimestamp", js_or (opt_member "lastTimestamp" event) (JStr ""));
         ("count", js_or (opt_member "count" event) (JNum 0))])
  end.

(** One element of [items]; [None] when the callback throws. *)
Definition format_item (resourceType : string) (item : JSValue) : option JSValue :=
  match Json.member "metadata" item with
  | None => None
  | Some metadata =>
      match getResourceStatus item with
      | None => None
      | Some status =>
          Some (JObj
            [("name", js_or (opt_member "name" metadata) (JStr ""));
             ("namespace", js_or (opt_member "namespace" metadata) (JStr ""));
             ("kind", js_or (opt_member "kind" item) (JStr resourceType));
             ("status", status);
             ("createdAt", opt_member "creationTimestamp" metadata)])
      end
  end.

(** [l.map(f)] where [f] may throw. *)
Fixpoint map_throwing (f : JSValue -> option JSValue) (l : list JSValue)
    : option (list JSValue) :=
  match l with
  | [] => Some []
  | x :: rest =>
      match f x with
      | None => None
      | Some y =>
          match map_throwing f rest with
          | None => None
          | Some ys => Some (y :: ys)
          end
      end
  end.

(** The block that formats a JSON list; [None] when it throws or falls
    through to the raw output. *)
Definition format_list (JSON_parse : string -> option JSValue)
    (resourceType result : string) : option Result :=
  match JSON_parse result with
  | None => None
  | Some parsed =>
      match Json.member "kind" parsed with
      | None => None
      | Some kind =>
          if js_truthy kind then
            match kind with
            | JStr k =>
                if ends_with "List" k && js_truthy (opt_member "items" parsed) then
                  match opt_member "items" parsed with
                  | JArr items =>
                      if String.eqb resourceType "events" then
                        match map_throwing format_event items with
                        | Some formattedEvents =>
                            Some (mkResult
                                    [mkItem "text"
                                       (JsonBody (JSON_stringify
                                          (JObj [("events", JArr formattedEvents)])))]
                                    false)
                        | None => None
                        end
                      else
                        match map_throwing (format_item resourceType) items with
                        | Some formatted =>
                            Some (mkResult
                                    [mkItem "text"
                                       (JsonBody (JSON_stringify
                                          (JObj [("items", JArr formatted)])))]
                                    false)
                        | None => None
                        end
                  | _ => None
                  end
                else None
            | _ => None
            end
          else None
      end
  end.

Definition get_args (input : Input) : list string :=
  let resourceType := Str.toLowerCase (resourceType input) in
  let name := or_default (name input) "" in
  let namespace := or_default (namespace input) "default" in
  let output := or_default (output input) "json" in
  let allNamespaces := allNamespaces input in
  let labelSelector := or_default (labelSelector input) "" in
  let fieldSelector := or_default (fieldSelector input) "" in
  let args := ["get"; resourceType] in
  let args := push args ["--context"; context input] in
  let args := if negb (String.eqb name "") then push args [name] else args in
  let shouldShowAllNamespaces :=
    if String.eqb resourceType "events"
    then match truthy (Get.namespace input) with Some _ => false | None => true end
    else allNamespaces in
  let args :=
    if shouldShowAllNamespaces then push args ["--all-namespaces"]
    else if negb (String.eqb namespace "") && negb (isNonNamespacedResource resourceType)
         then push args ["-n"; namespace]
         else args in
  let args := if negb (String.eqb labelSelector "")
              then push args ["-l"; labelSelector] else args in
  let args := if negb (String.eqb fieldSelector "")
              then push args ["--field-selector=" ++ fieldSelector] else args in
  let args :=
    if String.eqb resourceType "events" then
      match truthy (sortBy input) with
      | Some sortBy => push args ["--sort-by=." ++ sortBy]
      | None => push args ["--sort-by=.lastTimestamp"]
      end
    else args in
  let args :=
    if String.eqb output "json" then push args ["-o"; "json"]
    else if String.eqb output "yaml" then push args ["-o"; "yaml"]
    else if String.eqb output "wide" then push args ["-o"; "wide"]
    else if String.eqb output "name" then push args ["-o"; "name"]
    else if String.eqb output "custom" then
      if String.eqb resourceType "events" then
        push args ["-o";
                   "'custom-columns=LASTSEEN:.lastTimestamp,TYPE:.type,REASON:.reason,OBJECT:.involvedObject.name,MESSAGE:.message'"]
      else
        push args ["-o";
                   "'custom-columns=NAME:.metadata.name,NAMESPACE:.metadata.namespace,STATUS:.status.phase,AGE:.metadata.creationTimestamp'"]
    else args in
  args.

Definition not_found_text (resourceType name : string) : string :=
  "Resource " ++ resourceType
  ++ (if negb (String.eqb name "") then "/" ++ name else "") ++ " not found".

(** [kubectlGet]; the manager argument is not used by the function. *)
Definition kubectlGet (exec : list string -> ExecResult)
    (JSON_parse : string -> option JSValue)
    (McpError_message : ErrorCode -> string -> string) (input : Input) : M Result :=
  try_catch
    (let resourceType := Str.toLowerCase (resourceType input) in
     let name := or_default (name input) "" in
     let output := or_default (output input) "json" in
     let args := get_args input in
     try_catch
       (result <- execFileSync exec args ;;
        let isListOperation := String.eqb name "" in
        let raw := mkResult [mkItem "text" (RawBody result)] false in
        if isListOperation && String.eqb output "json" then
          match format_list JSON_parse resourceType result with
          | Some formatted => ret formatted
          | None => ret raw
          end
        else ret raw)
       (fun error =>
          if match error_status error with Some st => Z.eqb st 404 | None => false end
             || Str.includes "not found" (message_of McpError_message error)
          then
            ret (mkResult
                   [mkItem "text"
                      (JsonBody (JSON_stringify
                         (JObj [("error", JStr (not_found_text resourceType name));
                                ("status", JStr "not_found")])))] true)
          else
            throw (McpError InternalError
                     ("Failed to get resource: "
                      ++ message_of McpError_message error))))
    (fun error =>
       throw (McpError InternalError
                ("Failed to execute kubectl get command: "
                 ++ message_of McpError_message error))).

End Get.

(** A get request with another namespace, or another all-namespaces flag. *)
Definition get_with_namespace (ns : option string) (input : Get.Input) : Get.Input :=
  Get.mkInput (Get.resourceType input) (Get.name input) ns (Get.output input)
    (Get.allNamespaces input) (Get.labelSelector input) (Get.fieldSelector input)
    (Get.sortBy input) (Get.context input).

Definition get_with_allNamespaces (b : bool) (input : Get.Input) : Get.Input :=
  Get.mkInput (Get.resourceType input) (Get.name input) (Get.namespace input)
    (Get.output input) b (Get.labelSelector input) (Get.fieldSelector input)
    (Get.sortBy input) (Get.context input).

(** A listing of the pods of the default namespace, and what a parser makes
    of a pod list with two items. *)
Definition list_pods_input : Get.Input :=
  Get.mkInput "pods" None None None false None None None "ctx".

Definition two_pods_list : JSValue :=
  JObj [("kind", JStr "PodList");
        ("items",
         JArr [JObj [("kind", JStr "Pod");
                     ("metadata", JObj [("name", JStr "a"); ("namespace", JStr "default")]);
                     ("status", JObj [("phase", JStr "Running")])];
               JObj [("metadata", JObj [("name", JStr "b")]);
                     ("status", JObj [("readyReplicas", JNum 0)])]])].

Definition pods_listed : list string -> ExecResult :=
  table_exec [(Get.get_args list_pods_input, Stdout "two pods")] unexpected_call.

(** *** kubectl_context *)

(** [s.split(re)] where [re] matches each maximal run of white space: the
    pieces between the runs, an empty piece standing before a leading run
    and after a trailing one.  [in_run] tells that the previous character
    was white space. *)
Fixpoint split_runs (in_run : bool) (s : string) : list string :=
  match s with
  | EmptyString => [EmptyString]
  | String c s' =>
      if Str.is_space c then
        if in_run then split_runs true s' else EmptyString :: split_runs true s'
      else
        match split_runs false s' with
        | h :: t => String c h :: t
        | [] => [String c EmptyString]
        end
  end.

Definition split_whitespace (s : string) : list string := split_runs false s.

(** [l.indexOf(x)], [None] standing for -1. *)
Fixpoint indexOf (x : string) (l : list string) : option nat :=
  match l with
  | [] => None
  | y :: l' => if String.eqb y x then Some 0 else option_map S (indexOf x l')
  end.

(** [columns[index]?.trim()] *)
Definition column (columns : list string) (index : option nat) : option string :=
  match index with
  | Some i => option_map Str.trim (nth_error columns i)
  | None => None
  end.

Definition optional_text (o : option string) : JSValue :=
  match o with
  | Some s => JStr s
  | None => JUndefined
  end.

Definition newline : ascii := ascii_of_nat 10.

Module Context.

Record Input : Type := mkInput {
  showCurrent : option bool;
  detailed : option bool;
  output : option string
}.

(** One element of [contexts], from the header words and one line. *)
Definition context_of (headers : list string) (line : string) : JSValue :=
  let currentIndex := indexOf "CURRENT" headers in
  let nameIndex := indexOf "NAME" headers in
  let clusterIndex := indexOf "CLUSTER" headers in
  let authInfoIndex := indexOf "AUTHINFO" headers in
  let namespaceIndex := indexOf "NAMESPACE" headers in
  let columns := split_whitespace (Str.trim line) in
  let isCurrent :=
    match column columns currentIndex with
    | Some c => String.eqb c "*"
    | None => false
    end in
  JObj [("name", optional_text (column columns nameIndex));
        ("cluster", optional_text (column columns clusterIndex));
        ("user", optional_text (column columns authInfoIndex));
        ("namespace", JStr (or_default (column columns namespaceIndex) "default"));
        ("isCurrent", JBool isCurrent)].

(** The contexts read from the table printed by kubectl. *)
Definition parse_contexts (rawResult : string) : list JSValue :=
  let lines := Str.split newline (Str.trim rawResult) in
  let headers := split_whitespace (Str.trim (hd EmptyString lines)) in
  map (context_of headers) (tl lines).

(** [kubectlContext]; the manager argument and the fields [showCurrent] and
    [detailed] are read but not used by the function. *)
Definition kubectlContext (exec : list string -> ExecResult)
    (McpError_message : ErrorCode -> string -> string) (input : Input)
    : M Get.Result :=
  try_catch
    (let output := match output input with Some o => o | None => "json" end in
     let listArgs := ["config"; "get-contexts"] in
     if String.eqb output "name" then
       let listArgs := push listArgs ["-o"; "name"] in
       result <- execFileSync exec listArgs ;;
       ret (Get.mkResult [Get.mkItem "text" (Get.RawBody result)] false)
     else
       rawResult <- execFileSync exec listArgs ;;
       ret (Get.mkResult
              [Get.mkItem "text"
                 (Get.JsonBody
                    (JSON_stringify
                       (JObj [("contexts", JArr (parse_contexts rawResult))])))]
              false))
    (fun error =>
       throw (McpError InternalError
                ("Failed to list kubectl contexts: "
                 ++ message_of McpError_message error))).

End Context.

(** The table kubectl prints for two contexts, the first one current. *)
Definition two_contexts_table : string :=
  "CURRENT   NAME   CLUSTER   AUTHINFO   NAMESPACE"
  ++ String newline "*         dev    dev-c     dev-u      team"
  ++ String newline "          prod   prod-c    prod-u".

(** *** The list of tools offered by the server *)

Module Server.

(** A tool schema, of which the listing reads the name only. *)
Record Schema : Type := mkSchema { name : string }.

(** The three environment variables read when the server starts. *)
Record Env : Type := mkEnv {
  ALLOWED_TOOLS : option string;
  ALLOW_ONLY_READONLY_TOOLS : option string;
  ALLOW_ONLY_NON_DESTRUCTIVE_TOOLS : option string
}.

(** [v === "true"] on an environment variable. *)
Definition is_true (v : option string) : bool :=
  match v with
  | Some s => String.eqb s "true"
  | None => false
  end.

(** [names.includes(x)] *)
Definition includes (names : list string) (x : string) : bool :=
  existsb (String.eqb x) names.

(** The handler of the tools listing, for the three lists of schemas the
    server declares. *)
Definition listTools (allTools readonlyTools destructiveTools : list Schema)
    (env : Env) : list Schema :=
  let allowOnlyReadonlyTools := is_true (ALLOW_ONLY_READONLY_TOOLS env) in
  let allowedToolsEnv := ALLOWED_TOOLS env in
  let nonDestructiveTools := is_true (ALLOW_ONLY_NON_DESTRUCTIVE_TOOLS env) in
  match truthy allowedToolsEnv with
  | Some allowed =>
      let allowedToolNames := map Str.trim (Str.split ","%char allowed) in
      filter (fun tool => includes allowedToolNames (name tool)) allTools
  | None =>
      if allowOnlyReadonlyTools then readonlyTools
      else if nonDestructiveTools then
        filter (fun tool =>
                  negb (existsb (fun dt => String.eqb (name dt) (name tool))
                                destructiveTools))
               allTools
      else allTools
  end.

End Server.

(** ** Properties *)

(** *** Strings *)


Lemma drop_prefix_app p s rest :
  Str.drop_prefix p s = Some rest -> s = p ++ rest.
Proof.
  revert s; induction p as [|a p IH]; intros s H; simpl in *.
  - now inversion H.
  - destruct s as [|b s]; [discriminate|].
    destruct (Ascii.eqb_spec a b); [|discriminate].
    subst; f_equal; auto.
Qed.

Lemma drop_prefix_self p rest : Str.drop_prefix p (p ++ rest) = Some rest.
Proof.
  induction p as [|a p IH]; simpl; [reflexivity|].
  now rewrite Ascii.eqb_refl.
Qed.

Lemma starts_with_app p rest : Str.starts_with p (p ++ rest) = true.
Proof. unfold Str.starts_with; now rewrite drop_prefix_self. Qed.

Lemma includes_here sub s : Str.starts_with sub s = true -> Str.includes sub s = true.
Proof. destruct s; simpl; intros ->; reflexivity. Qed.



Lemma split_not_nil sep s : Str.split sep s <> [].
Proof.
  destruct s as [|c s]; simpl; [discriminate|].
  destruct (Ascii.eqb c sep); [discriminate|].
  destruct (Str.split sep s); discriminate.
Qed.

Lemma split_single sep s x : Str.split sep s = [x] -> x = s.
Proof.
  revert x; induction s as [|c s IH]; intros x; simpl.
  - now intros [= <-].
  - destruct (Ascii.eqb c sep).
    + intros [= <- H]; now apply split_not_nil in H.
    + destruct (Str.split sep s) as [|h t] eqn:E.
      * now apply split_not_nil in E.
      * intros [= <- ->]. now rewrite (IH h eq_refl).
Qed.

Lemma split_head sep c s :
  Ascii.eqb c sep = false ->
  exists h t, Str.split sep (String c s) = String c h :: t.
Proof.
  intros H; simpl; rewrite H.
  destruct (Str.split sep s) as [|h t]; eauto.
Qed.

Lemma trim_end_head c s :
  Str.is_space c = false ->
  exists t, Str.trim_end (String c s) = String c t.
Proof.
  intros H; simpl. destruct (Str.trim_end s); [rewrite H|]; eauto.
Qed.

Lemma trim_start_head s :
  Str.trim_start s = EmptyString \/
  exists c t, Str.trim_start s = String c t /\ Str.is_space c = false.
Proof.
  induction s as [|c s IH]; simpl; [now left|].
  destruct (Str.is_space c) eqn:E; [exact IH|right; eauto].
Qed.

Lemma trim_head s :
  Str.trim s = EmptyString \/
  exists c t, Str.trim s = String c t /\ Str.is_space c = false.
Proof.
  unfold Str.trim.
  destruct (trim_start_head s) as [->|(c & t & -> & Hc)]; [now left|].
  right. destruct (trim_end_head c t Hc) as [t' ->]; eauto.
Qed.

Lemma discovered_nil out : discovered out = [] <-> Str.trim out = EmptyString.
Proof.
  unfold discovered; split.
  - destruct (trim_head out) as [->|(c & t & -> & Hc)]; [reflexivity|].
    assert (Hsep : Ascii.eqb c " "%char = false).
    { destruct (Ascii.eqb_spec c " "%char); [subst; discriminate|reflexivity]. }
    destruct (split_head _ _ t Hsep) as (h & l & ->). simpl. discriminate.
  - intros ->. reflexivity.
Qed.

Lemma nothing_listed_split s :
  nothing_listed (Str.split " "%char s) = true <-> s = EmptyString.
Proof.
  unfold nothing_listed; split.
  - destruct (Str.split " "%char s) as [|x [|y l]] eqn:E; simpl.
    + now apply split_not_nil in E.
    + intros H. apply split_single in E. subst x.
      now apply String.eqb_eq in H.
    + discriminate.
  - intros ->. reflexivity.
Qed.

Lemma nothing_listed_trim out :
  nothing_listed (Str.split " "%char (Str.trim out)) = true <-> discovered out = [].
Proof. rewrite nothing_listed_split, discovered_nil. tauto. Qed.

(** *** The patterns of the classifier *)



Lemma includes_app_mid a b c : Str.includes b (a ++ b ++ c) = true.
Proof.
  induction a as [|x a IH]; simpl.
  - apply includes_here, starts_with_app.
  - rewrite IH. apply orb_true_r.
Qed.




(** The primitives meet their usual descriptions. *)

Lemma includes_spec sub s :
  Str.includes sub s = true <-> exists a b, s = a ++ sub ++ b.
Proof.
  split.
  - induction s as [|c s IH]; cbn [Str.includes]; intros H.
    + rewrite orb_false_r in H. unfold Str.starts_with in H.
      destruct (Str.drop_prefix sub EmptyString) as [r|] eqn:E; [|discriminate].
      apply drop_prefix_app in E. now exists EmptyString, r.
    + apply orb_true_iff in H. destruct H as [H|H].
      * unfold Str.starts_with in H.
        destruct (Str.drop_prefix sub (String c s)) as [r|] eqn:E; [|discriminate].
        apply drop_prefix_app in E. now exists EmptyString, r.
      * destruct (IH H) as (a & b & ->). now exists (String c a), b.
  - intros (a & b & ->). apply includes_app_mid.
Qed.

Lemma join_head sep c h t :
  Str.join sep (String c h :: t) = String c (Str.join sep (h :: t)).
Proof. destruct t; reflexivity. Qed.

Lemma split_join sep s :
  Str.join (String sep EmptyString) (Str.split sep s) = s.
Proof.
  induction s as [|c s IH]; [reflexivity|]. cbn [Str.split].
  destruct (Str.split sep s) as [|h t] eqn:E; [now apply split_not_nil in E|].
  destruct (Ascii.eqb_spec c sep) as [->|Hc].
  - change (Str.join (String sep EmptyString) (EmptyString :: h :: t))
      with (String sep (Str.join (String sep EmptyString) (h :: t))).
    now rewrite IH.
  - now rewrite join_head, IH.
Qed.

Lemma split_pieces sep s x :
  In x (Str.split sep s) -> contains_char sep x = false.
Proof.
  revert x. induction s as [|c s IH]; intros x; cbn [Str.split].
  - intros [<-|[]]. reflexivity.
  - destruct (Ascii.eqb_spec c sep) as [->|Hc].
    + intros [<-|H]; [reflexivity|now apply IH].
    + destruct (Str.split sep s) as [|h t] eqn:E; [now apply split_not_nil in E|].
      intros [<-|H].
      * simpl. destruct (Ascii.eqb_spec c sep); [contradiction|].
        apply IH. now left.
      * apply IH. now right.
Qed.

Example split_keeps_empty_pieces :
  Str.split " "%char "a  b" = ["a"; ""; "b"] /\ Str.split " "%char "" = [""].
Proof. split; reflexivity. Qed.

Example trim_strips_both_ends :
  Str.trim ("  a b " ++ String (ascii_of_nat 10) EmptyString) = "a b".
Proof. reflexivity. Qed.

Example array_index_keys_come_first :
  Json.keys (Json.set "2" JNull (Json.set "b" JNull (Json.set "10" JNull
              (Json.set "a" JNull []))))
  = ["2"; "10"; "a"; "b"].
Proof. reflexivity. Qed.

(** *** The classifier *)

Lemma norm_strings (l : list string) :
  map (fun x => match x with JUndefined => JNull | _ => Json.norm x end)
      (map JStr l) = map JStr l.
Proof. induction l as [|x l IH]; simpl; [reflexivity|now rewrite IH]. Qed.

(** The multi-container document of the classifier. *)
Lemma multi_container_document (error : Thrown) (resourceDescription : string) :
  (match error_status error with Some st => Z.eqb st 404 | None => false end
   || Str.includes "not found" (error_message error)) = false ->
  Str.includes "a container name must be specified" (error_message error) = true ->
  handleCommandError error resourceDescription =
    let m := error_message error in
    let containers := container_list (containersMatch m) in
    let initContainers := container_list (initContainersMatch m) in
    mkResult
      [mkContent "text"
         (Serialized
            (JObj [("error", JStr "Multi-container pod requires container specification");
                   ("status", JStr "multi_container_error");
                   ("pod_name",
                    JStr (match podNameMatch m with Some p => p | None => "unknown" end));
                   ("available_containers", JArr (map JStr containers));
                   ("init_containers", JArr (map JStr initContainers));
                   ("suggestion", JStr (suggestion containers initContainers))]))]
      true.
Proof.
  intros H1 H2. unfold handleCommandError. rewrite H1, H2.
  unfold text_content, JSON_stringify. cbn [Json.norm].
  now rewrite !norm_strings.
Qed.




(** *** Plain objects *)

Lemma has_key_overwrite k k' v o :
  Json.has_key k (Json.overwrite k' v o) = Json.has_key k o.
Proof.
  induction o as [|[k0 v0] o IH]; simpl; [reflexivity|].
  destruct (String.eqb k' k0); simpl; [reflexivity|now rewrite IH].
Qed.

Lemma get_overwrite_same k v o :
  Json.has_key k o = true -> Json.get k (Json.overwrite k v o) = v.
Proof.
  induction o as [|[k0 v0] o IH]; simpl; [discriminate|].
  destruct (String.eqb k k0) eqn:E; simpl; rewrite E; [reflexivity|exact IH].
Qed.

Lemma get_overwrite_other k k' v o :
  k <> k' -> Json.get k (Json.overwrite k' v o) = Json.get k o.
Proof.
  intros Hk. induction o as [|[k0 v0] o IH]; simpl; [reflexivity|].
  destruct (String.eqb_spec k' k0) as [->|Hn]; simpl.
  - destruct (String.eqb_spec k k0); [contradiction|reflexivity].
  - now rewrite IH.
Qed.

Lemma length_overwrite k v o : length (Json.overwrite k v o) = length o.
Proof.
  induction o as [|[k0 v0] o IH]; simpl; [reflexivity|].
  destruct (String.eqb k k0); simpl; [reflexivity|now rewrite IH].
Qed.

Lemma keys_overwrite k v o : Json.keys (Json.overwrite k v o) = Json.keys o.
Proof.
  unfold Json.keys. induction o as [|[k0 v0] o IH]; simpl; [reflexivity|].
  destruct (String.eqb k k0); simpl; [reflexivity|now rewrite IH].
Qed.

Lemma get_insert_index_same n k v o :
  Json.has_key k o = false -> Json.get k (Json.insert_index n k v o) = v.
Proof.
  induction o as [|[k0 v0] o IH]; simpl.
  - now rewrite String.eqb_refl.
  - intros H. apply orb_false_iff in H. destruct H as [H1 H2].
    destruct (Json.array_index k0) as [m|];
      [destruct (m <? n)%N|]; simpl; rewrite ?String.eqb_refl, ?H1; auto.
Qed.

Lemma get_insert_index_other n k k' v o :
  k <> k' -> Json.get k (Json.insert_index n k' v o) = Json.get k o.
Proof.
  intros Hk. apply String.eqb_neq in Hk.
  induction o as [|[k0 v0] o IH]; simpl.
  - now rewrite Hk.
  - destruct (Json.array_index k0) as [m|];
      [destruct (m <? n)%N|]; simpl; rewrite ?Hk, ?IH; reflexivity.
Qed.

Lemma keys_insert_index n k v o :
  Permutation (Json.keys (Json.insert_index n k v o)) (k :: Json.keys o).
Proof.
  unfold Json.keys. induction o as [|[k0 v0] o IH]; simpl; [reflexivity|].
  destruct (Json.array_index k0) as [m|];
    [destruct (m <? n)%N|]; simpl; try reflexivity.
  rewrite IH. apply perm_swap.
Qed.

Lemma get_app_same k v o :
  Json.has_key k o = false -> Json.get k (o ++ [(k, v)])%list = v.
Proof.
  induction o as [|[k0 v0] o IH]; simpl.
  - now rewrite String.eqb_refl.
  - intros H. apply orb_false_iff in H. destruct H as [-> H2]. auto.
Qed.

Lemma get_app_other k k' v o :
  k <> k' -> Json.get k (o ++ [(k', v)])%list = Json.get k o.
Proof.
  intros Hk. apply String.eqb_neq in Hk.
  induction o as [|[k0 v0] o IH]; simpl; [now rewrite Hk|now rewrite IH].
Qed.

(** Reading back what was just assigned. *)
Lemma get_set_same k v o :
  k <> "__proto__" -> Json.get k (Json.set k v o) = v.
Proof.
  intros Hk. unfold Json.set. apply String.eqb_neq in Hk. rewrite Hk.
  destruct (Json.has_key k o) eqn:E.
  - now apply get_overwrite_same.
  - destruct (Json.array_index k).
    + now apply get_insert_index_same.
    + now apply get_app_same.
Qed.

(** An assignment leaves the other keys alone. *)
Lemma get_set_other k k' v o :
  k <> k' -> Json.get k (Json.set k' v o) = Json.get k o.
Proof.
  intros Hk. unfold Json.set.
  destruct (String.eqb k' "__proto__"); [reflexivity|].
  destruct (Json.has_key k' o).
  - now apply get_overwrite_other.
  - destruct (Json.array_index k').
    + now apply get_insert_index_other.
    + now apply get_app_other.
Qed.

Lemma has_key_in k o : Json.has_key k o = true <-> In k (Json.keys o).
Proof.
  unfold Json.keys. induction o as [|[k0 v0] o IH]; simpl.
  - split; [discriminate|tauto].
  - rewrite orb_true_iff, IH, String.eqb_eq. split; intros [H|H]; auto.
Qed.

(** A new key adds exactly one entry. *)
Lemma keys_set_new k v o :
  k <> "__proto__" -> Json.has_key k o = false ->
  Permutation (Json.keys (Json.set k v o)) (k :: Json.keys o).
Proof.
  intros Hk Hn. unfold Json.set. apply String.eqb_neq in Hk. rewrite Hk, Hn.
  destruct (Json.array_index k).
  - apply keys_insert_index.
  - unfold Json.keys. rewrite map_app. simpl.
    symmetry. apply Permutation_cons_append.
Qed.

Lemma has_key_insert_index n k k' v o :
  Json.has_key k (Json.insert_index n k' v o) = String.eqb k k' || Json.has_key k o.
Proof.
  induction o as [|[k0 v0] o IH]; simpl; [reflexivity|].
  destruct (Json.array_index k0) as [m|];
    [destruct (m <? n)%N|]; simpl; try reflexivity.
  rewrite IH. now rewrite !orb_assoc, (orb_comm (String.eqb k k0)).
Qed.

Lemma has_key_app k k' v o :
  Json.has_key k (o ++ [(k', v)])%list = String.eqb k k' || Json.has_key k o.
Proof.
  induction o as [|[k0 v0] o IH]; simpl; [now rewrite orb_false_r|].
  rewrite IH. now rewrite !orb_assoc, (orb_comm (String.eqb k k0)).
Qed.

Lemma has_key_set_other k k' v o :
  k <> k' -> Json.has_key k (Json.set k' v o) = Json.has_key k o.
Proof.
  intros Hk. apply String.eqb_neq in Hk. unfold Json.set.
  destruct (String.eqb k' "__proto__"); [reflexivity|].
  destruct (Json.has_key k' o).
  - apply has_key_overwrite.
  - destruct (Json.array_index k').
    + now rewrite has_key_insert_index, Hk.
    + now rewrite has_key_app, Hk.
Qed.

Lemma in_overwrite k v o e :
  In e (Json.overwrite k v o) -> e = (k, v) \/ In e o.
Proof.
  induction o as [|[k0 v0] o IH]; simpl; [tauto|].
  destruct (String.eqb_spec k k0) as [->|Hn]; simpl; intuition.
Qed.

Lemma in_insert_index n k v o e :
  In e (Json.insert_index n k v o) -> e = (k, v) \/ In e o.
Proof.
  induction o as [|[k0 v0] o IH]; simpl; [intuition|].
  destruct (Json.array_index k0) as [m|];
    [destruct (m <? n)%N|]; simpl; intuition.
Qed.

(** Every entry of an object after an assignment is the assigned one or
    was there before. *)
Lemma in_set k v o e : In e (Json.set k v o) -> e = (k, v) \/ In e o.
Proof.
  unfold Json.set.
  destruct (String.eqb k "__proto__"); [tauto|].
  destruct (Json.has_key k o).
  - apply in_overwrite.
  - destruct (Json.array_index k).
    + apply in_insert_index.
    + rewrite in_app_iff. simpl. intuition.
Qed.

(** The object built by assigning [g k] to each key [k] of a list in turn. *)
Section Assignments.

Variable g : string -> JSValue.

Lemma get_assign_other ks k o :
  ~ In k ks -> Json.get k (fold_left (fun o k => Json.set k (g k) o) ks o) = Json.get k o.
Proof.
  revert o; induction ks as [|k0 ks IH]; intros o Hk; simpl; [reflexivity|].
  rewrite IH by (simpl in Hk; tauto).
  apply get_set_other. simpl in Hk. intros ->. tauto.
Qed.

(** Every assigned key other than [__proto__] reads back as [g k]; the
    oracle being a function, repeated keys are assigned the same value. *)
Lemma get_assign ks k o :
  In k ks -> k <> "__proto__" ->
  Json.get k (fold_left (fun o k => Json.set k (g k) o) ks o) = g k.
Proof.
  revert o; induction ks as [|k0 ks IH]; intros o Hin Hp; simpl; [destruct Hin|].
  destruct (in_dec string_dec k ks) as [Hk|Hk].
  - now apply IH.
  - destruct Hin as [->|Hin]; [|contradiction].
    rewrite get_assign_other by assumption.
    now apply get_set_same.
Qed.

Lemma in_assign ks o e :
  In e (fold_left (fun o k => Json.set k (g k) o) ks o) -> In e o \/ exists k, In k ks /\ e = (k, g k).
Proof.
  revert o; induction ks as [|k0 ks IH]; intros o H; simpl in *; [now left|].
  destruct (IH _ H) as [H1|(k & Hk & ->)].
  - apply in_set in H1. destruct H1 as [->|H1]; [right; eauto|now left].
  - right; eauto.
Qed.

(** Distinct new keys give one entry each. *)
Lemma keys_assign ks o :
  NoDup ks -> ~ In "__proto__" ks ->
  (forall k, In k ks -> Json.has_key k o = false) ->
  Permutation (Json.keys (fold_left (fun o k => Json.set k (g k) o) ks o)) (Json.keys o ++ ks).
Proof.
  revert o; induction ks as [|k0 ks IH]; intros o Hnd Hp Hnew; simpl.
  - now rewrite app_nil_r.
  - inversion Hnd as [|? ? Hk0 Hnd']; subst.
    rewrite IH; [| assumption | simpl in Hp; tauto |].
    + rewrite keys_set_new; [| simpl in Hp; intros E; apply Hp; now left
                               | apply Hnew; now left].
      apply Permutation_middle.
    + intros k Hk.
      rewrite has_key_set_other; [apply Hnew; now right|].
      intros ->. contradiction.
Qed.

End Assignments.

(** *** Computations *)

Lemma framed_ret {A : Type} (a : A) : framed (ret a).
Proof. intros t. unfold ret; simpl. now rewrite app_nil_r. Qed.

Lemma framed_throw {A : Type} (e : Thrown) : framed (@throw A e).
Proof. intros t. unfold throw; simpl. now rewrite app_nil_r. Qed.

Lemma framed_bind {A B : Type} (m : M A) (k : A -> M B) :
  framed m -> (forall a, framed (k a)) -> framed (bind m k).
Proof.
  intros Hm Hk t. unfold bind. rewrite (Hm t).
  destruct (m []) as [[e|a] t1]; simpl.
  - reflexivity.
  - rewrite (Hk a (t ++ t1)%list), (Hk a t1). simpl. now rewrite app_assoc.
Qed.

Lemma framed_try {A : Type} (m : M A) (h : Thrown -> M A) :
  framed m -> (forall e, framed (h e)) -> framed (try_catch m h).
Proof.
  intros Hm Hh t. unfold try_catch. rewrite (Hm t).
  destruct (m []) as [[e|a] t1]; simpl.
  - rewrite (Hh e (t ++ t1)%list), (Hh e t1). simpl. now rewrite app_assoc.
  - reflexivity.
Qed.

(** The response of a framed computation does not depend on earlier calls. *)
Lemma framed_fst {A : Type} (m : M A) t : framed m -> fst (m t) = fst (m []).
Proof. intros H. now rewrite (H t). Qed.

Lemma framed_snd {A : Type} (m : M A) t :
  framed m -> snd (m t) = (t ++ snd (m []))%list.
Proof. intros H. now rewrite (H t). Qed.

Lemma text_content_object o :
  exists o', text_content (JObj o) = [mkContent "text" (Serialized (JObj o'))].
Proof. unfold text_content, JSON_stringify. cbn [Json.norm]. eauto. Qed.

Lemma handleCommandError_object error desc :
  object_response (handleCommandError error desc).
Proof.
  unfold handleCommandError, object_response.
  destruct (_ || _); [|destruct (Str.includes _ _)]; cbn [content];
    apply text_content_object.
Qed.

Lemma handleCommandError_isError error desc :
  isError (handleCommandError error desc) = true.
Proof.
  unfold handleCommandError.
  destruct (_ || _); [|destruct (Str.includes _ _)]; reflexivity.
Qed.

Section PipelineFacts.

Variable exec : list string -> ExecResult.
Variable JSON_parse : string -> option JSValue.
Variable SyntaxError_message : string -> string.

Lemma framed_execFileSync args : framed (execFileSync exec args).
Proof. intros t. unfold execFileSync. reflexivity. Qed.

Lemma fetch_each_run context namespace input pods logsMap t :
  fetch_each exec context namespace input pods logsMap t =
  (inr (fold_left
          (fun o pod => Json.set pod (JStr (entry_text exec context namespace input pod)) o)
          (filter nonempty pods) logsMap),
   (t ++ map (fun pod => logs_args context namespace pod input)
             (filter nonempty pods))%list).
Proof.
  revert logsMap t. induction pods as [|pod rest IH]; intros logsMap t.
  - simpl. unfold ret. now rewrite app_nil_r.
  - cbn [fetch_each filter].
    assert (Hn : nonempty pod = negb (String.eqb pod "")) by reflexivity.
    rewrite Hn. destruct (String.eqb pod ""); cbn [negb].
    + apply IH.
    + unfold bind, try_catch, execFileSync, ret.
      pose proof (eq_refl (entry_text exec context namespace input pod)) as He.
      unfold entry_text at 2 in He.
      destruct (exec (logs_args context namespace pod input)) as [logs|st m];
        cbn [error_message]; rewrite IH; cbn [fold_left map];
        rewrite He, <- app_assoc; reflexivity.
Qed.

Lemma framed_fetch_each context namespace input pods logsMap :
  framed (fetch_each exec context namespace input pods logsMap).
Proof.
  intros t. rewrite !fetch_each_run. reflexivity.
Qed.

Lemma framed_getLabelSelectorLogs labelSelector namespace input context :
  framed (getLabelSelectorLogs exec labelSelector namespace input context).
Proof.
  unfold getLabelSelectorLogs.
  apply framed_try; [|intros; apply framed_ret].
  apply framed_bind; [apply framed_execFileSync|]. intros out.
  destruct (nothing_listed _); [apply framed_ret|].
  apply framed_bind; [apply framed_fetch_each|]. intros; apply framed_ret.
Qed.

(** The three ways a discovery ends. *)
Lemma getLabelSelectorLogs_listing_fails labelSelector namespace input context st m t :
  exec (pods_args context namespace labelSelector) = Fails st m ->
  getLabelSelectorLogs exec labelSelector namespace input context t =
  (inr (handleCommandError (Error st m)
          ("pods with selector " ++ Str.dquote ++ labelSelector ++ Str.dquote)),
   (t ++ [pods_args context namespace labelSelector])%list).
Proof.
  intros H. unfold getLabelSelectorLogs, try_catch, bind, execFileSync.
  rewrite H. reflexivity.
Qed.

Lemma getLabelSelectorLogs_nothing labelSelector namespace input context out t :
  exec (pods_args context namespace labelSelector) = Stdout out ->
  discovered out = [] ->
  getLabelSelectorLogs exec labelSelector namespace input context t =
  (inr (mkResult
          [mkContent "text"
             (Serialized (JObj [("message", JStr (no_pods_message labelSelector namespace))]))]
          false),
   (t ++ [pods_args context namespace labelSelector])%list).
Proof.
  intros H Hd. apply nothing_listed_trim in Hd.
  unfold getLabelSelectorLogs, try_catch, bind, execFileSync.
  rewrite H, Hd. reflexivity.
Qed.

Lemma norm_string_entries (o : JSObject) :
  (forall k v, In (k, v) o -> exists s, v = JStr s) ->
  Json.norm (JObj o) = JObj o.
Proof.
  intros H. cbn [Json.norm]. f_equal.
  induction o as [|[k v] o IH]; [reflexivity|].
  destruct (H k v (or_introl eq_refl)) as [s ->].
  cbn [Json.norm]. f_equal. apply IH. intros k' v' Hin. apply (H k' v'). now right.
Qed.

End PipelineFacts.

Lemma filter_negb_length {A : Type} (f : A -> bool) (l : list A) :
  length (filter (fun x => negb (f x)) l) = length l - length (filter f l).
Proof.
  induction l as [|x l IH]; [reflexivity|].
  pose proof (filter_length_le f l) as Hle.
  cbn [filter]. destruct (f x); cbn [negb length]; rewrite IH; lia.
Qed.

Lemma discovered_nonempty out : ~ In EmptyString (discovered out).
Proof.
  unfold discovered. intros H. apply filter_In in H. destruct H as [_ H].
  discriminate.
Qed.

(** *** Discovery and fan-out *)

(** C4: when the listing yields no pod name, the response is the message
    "No pods found with label selector <selector> in namespace <namespace>",
    it has no [logs] map and is not an error, and no log is fetched.  The
    empty output stands for no pod, and no output ever stands for a pod
    whose name is the empty string. *)
Theorem C4_no_pods_message (exec : list string -> ExecResult)
    (labelSelector namespace : string) (input : Input) (context out : string) :
  exec (pods_args context namespace labelSelector) = Stdout out ->
  discovered out = [] ->
  exists r,
    run (getLabelSelectorLogs exec labelSelector namespace input context)
    = (inr r, [pods_args context namespace labelSelector])
    /\ document r
       = JObj [("message",
                JStr ("No pods found with label selector " ++ Str.dquote
                      ++ labelSelector ++ Str.dquote ++ " in namespace "
                      ++ namespace))]
    /\ field "logs" r = JUndefined
    /\ isError r = false
    /\ discovered "" = []
    /\ (forall any, ~ In "" (discovered any)).
Proof.
  intros H Hd. eexists. split; [|split; [|split; [|split; [|split]]]].
  - unfold run. rewrite (getLabelSelectorLogs_nothing exec _ _ _ _ out); auto.
  - reflexivity.
  - reflexivity.
  - reflexivity.
  - reflexivity.
  - intros any. apply discovered_nonempty.
Qed.

Lemma C4_no_pods_message_witness :
  no_pods (pods_args "ctx" "default" "app=x") = Stdout "" /\
  discovered "" = [] /\
  exists r,
    run (getLabelSelectorLogs no_pods "app=x" "default" (plain_input "job" "" None) "ctx")
    = (inr r, [pods_args "ctx" "default" "app=x"])
    /\ field "message" r
       = JStr ("No pods found with label selector " ++ Str.dquote ++ "app=x"
               ++ Str.dquote ++ " in namespace default")
    /\ field "logs" r = JUndefined.
Proof.
  split; [reflexivity|split; [reflexivity|]].
  destruct (C4_no_pods_message no_pods "app=x" "default"
              (plain_input "job" "" None) "ctx" "" eq_refl eq_refl)
    as (r & Hrun & Hdoc & Hlogs & _).
  exists r. split; [exact Hrun|split; [|exact Hlogs]].
  unfold field. rewrite Hdoc. reflexivity.
Defined.

Lemma fan_out_document labelSelector namespace (logsMap : JSObject) :
  (forall k v, In (k, v) logsMap -> exists s, v = JStr s) ->
  text_content (JObj [("selector", JStr labelSelector);
                      ("namespace", JStr namespace);
                      ("logs", JObj logsMap)])
  = [mkContent "text"
       (Serialized (JObj [("selector", JStr labelSelector);
                          ("namespace", JStr namespace);
                          ("logs", JObj logsMap)]))].
Proof.
  intros H. unfold text_content, JSON_stringify.
  change (Json.norm (JObj [("selector", JStr labelSelector);
                           ("namespace", JStr namespace);
                           ("logs", JObj logsMap)]))
    with (JObj [("selector", JStr labelSelector);
                ("namespace", JStr namespace);
                ("logs", Json.norm (JObj logsMap))]).
  now rewrite norm_string_entries.
Qed.

(** The fan-out over a non-empty listing. *)
Lemma getLabelSelectorLogs_fan_out exec labelSelector namespace input context out t :
  exec (pods_args context namespace labelSelector) = Stdout out ->
  discovered out <> [] ->
  getLabelSelectorLogs exec labelSelector namespace input context t =
  (inr (mkResult
          [mkContent "text"
             (Serialized
                (JObj [("selector", JStr labelSelector);
                       ("namespace", JStr namespace);
                       ("logs",
                        JObj (fold_left
                                (fun o pod =>
                                   Json.set pod
                                     (JStr (entry_text exec context namespace input pod)) o)
                                (discovered out) []))]))] false),
   (t ++ pods_args context namespace labelSelector
      :: map (fun pod => logs_args context namespace pod input) (discovered out))%list).
Proof.
  intros H Hd.
  assert (Hn : nothing_listed (Str.split " "%char (Str.trim out)) = false).
  { destruct (nothing_listed _) eqn:E; [|reflexivity].
    apply nothing_listed_trim in E. contradiction. }
  unfold getLabelSelectorLogs, try_catch, bind, execFileSync.
  rewrite H, Hn, fetch_each_run. unfold ret. fold (discovered out).
  rewrite fan_out_document.
  - now rewrite <- app_assoc.
  - intros k v Hin.
    apply (in_assign (fun pod => JStr (entry_text exec context namespace input pod)))
      in Hin.
    destruct Hin as [[]|(k' & _ & [= _ ->])]. eauto.
Qed.

(** C1 (amended): for a listing that yields N distinct pod names (none of
    them the reserved key [__proto__]) of which exactly K log fetches fail,
    the response is the report [{selector, namespace, logs}], never an
    error; every pod is fetched once, in listing order; [logs] has exactly N
    entries, keyed by the pod names; the K failing pods hold the text
    "Error: " followed by the failure message as it came (no
    classification), the N - K others hold the fetched text. *)
Theorem C1_fan_out_report (exec : list string -> ExecResult)
    (labelSelector namespace : string) (input : Input) (context out : string)
    (K : nat) :
  exec (pods_args context namespace labelSelector) = Stdout out ->
  discovered out <> [] ->
  NoDup (discovered out) ->
  ~ In "__proto__" (discovered out) ->
  length (filter (fetch_fails exec context namespace input) (discovered out)) = K ->
  exists logsMap,
    run (getLabelSelectorLogs exec labelSelector namespace input context)
    = (inr (mkResult
              [mkContent "text"
                 (Serialized (JObj [("selector", JStr labelSelector);
                                    ("namespace", JStr namespace);
                                    ("logs", JObj logsMap)]))] false),
       pods_args context namespace labelSelector
         :: map (fun pod => logs_args context namespace pod input) (discovered out))
    /\ length logsMap = length (discovered out)
    /\ Permutation (Json.keys logsMap) (discovered out)
    /\ (forall pod, In pod (discovered out) ->
        fetch_fails exec context namespace input pod = true ->
        exists st m,
          exec (logs_args context namespace pod input) = Fails st m /\
          Json.get pod logsMap = JStr ("Error: " ++ m))
    /\ (forall pod, In pod (discovered out) ->
        fetch_fails exec context namespace input pod = false ->
        exists logs,
          exec (logs_args context namespace pod input) = Stdout logs /\
          Json.get pod logsMap = JStr logs)
    /\ length (filter (fun pod => negb (fetch_fails exec context namespace input pod))
                      (discovered out))
       = length (discovered out) - K.
Proof.
  intros H Hne Hnd Hp HK.
  set (g := fun pod => JStr (entry_text exec context namespace input pod)).
  exists (fold_left (fun o pod => Json.set pod (g pod) o) (discovered out) []).
  assert (Hkeys : Permutation
                    (Json.keys (fold_left (fun o pod => Json.set pod (g pod) o)
                                          (discovered out) []))
                    (discovered out)).
  { apply (keys_assign g (discovered out) []); auto. }
  split; [|split; [|split; [|split; [|split]]]].
  - unfold run. now rewrite (getLabelSelectorLogs_fan_out exec _ _ _ _ out).
  - apply Permutation_length in Hkeys. unfold Json.keys in Hkeys.
    now rewrite length_map in Hkeys.
  - exact Hkeys.
  - intros pod Hin Hf.
    rewrite (get_assign g) by (auto; intros ->; contradiction).
    unfold g, entry_text. unfold fetch_fails in Hf.
    destruct (exec (logs_args context namespace pod input)) as [|st m];
      [discriminate|eauto].
  - intros pod Hin Hf.
    rewrite (get_assign g) by (auto; intros ->; contradiction).
    unfold g, entry_text. unfold fetch_fails in Hf.
    destruct (exec (logs_args context namespace pod input)) as [logs|];
      [eauto|discriminate].
  - rewrite filter_negb_length. now rewrite HK.
Qed.

Lemma C1_fan_out_report_witness :
  discovered "a b c" = ["a"; "b"; "c"] /\
  length (filter (fetch_fails three_pods "ctx" "default" (plain_input "pod" "" None))
                 (discovered "a b c")) = 1 /\
  exists logsMap,
    fst (run (getLabelSelectorLogs three_pods "app=x" "default"
                (plain_input "pod" "" None) "ctx"))
    = inr (mkResult
             [mkContent "text"
                (Serialized (JObj [("selector", JStr "app=x");
                                   ("namespace", JStr "default");
                                   ("logs", JObj logsMap)]))] false)
    /\ length logsMap = 3
    /\ Json.get "a" logsMap = JStr "log of a"
    /\ Json.get "b" logsMap = JStr "Error: container is waiting"
    /\ Json.get "c" logsMap = JStr "log of c".
Proof.
  split; [reflexivity|split; [reflexivity|]].
  assert (Hne : discovered "a b c" <> []) by discriminate.
  assert (Hnd : NoDup (discovered "a b c")).
  { repeat constructor; simpl; intuition discriminate. }
  assert (Hp : ~ In "__proto__" (discovered "a b c")).
  { simpl; intuition discriminate. }
  destruct (C1_fan_out_report three_pods "app=x" "default"
              (plain_input "pod" "" None) "ctx" "a b c" 1
              eq_refl Hne Hnd Hp eq_refl)
    as (logsMap & Hrun & Hlen & _ & Hfail & Hok & _).
  exists logsMap. rewrite Hrun. split; [reflexivity|split; [exact Hlen|]].
  destruct (Hok "a") as (la & Ea & Ga); [simpl; tauto|reflexivity|].
  destruct (Hfail "b") as (st & m & Eb & Gb); [simpl; tauto|reflexivity|].
  destruct (Hok "c") as (lc & Ec & Gc); [simpl; tauto|reflexivity|].
  rewrite Ga, Gb, Gc.
  inversion Ea; inversion Eb; inversion Ec. repeat split.
Defined.

Lemma classified_failure_is_object v :
  classified_failure v -> exists o, v = JObj o.
Proof.
  intros (error & desc & <-).
  destruct (handleCommandError_object error desc) as [o Ho].
  unfold document. rewrite Ho. simpl. eauto.
Qed.

(** C1, as stated, fails: the one fetch of this fan-out fails (N = K = 1),
    yet the entry recorded for it is no classified failure but the prefixed
    message, although the classifier files the same failure under
    [not_found]. *)
Lemma C1_failure_entries_are_not_classified :
  discovered "a" = ["a"] /\
  fetch_fails one_failing_pod "ctx" "default" (plain_input "pod" "" None) "a" = true /\
  run (getLabelSelectorLogs one_failing_pod "app=x" "default"
         (plain_input "pod" "" None) "ctx")
  = (inr (mkResult
            [mkContent "text"
               (Serialized (JObj [("selector", JStr "app=x");
                                  ("namespace", JStr "default");
                                  ("logs", JObj [("a", JStr "Error: pods a not found")])]))]
            false),
     [pods_args "ctx" "default" "app=x";
      logs_args "ctx" "default" "a" (plain_input "pod" "" None)]) /\
  ~ classified_failure (JStr "Error: pods a not found") /\
  classification (handleCommandError (Error (Some 1%Z) "pods a not found") "pod a")
  = (JStr "not_found", true).
Proof.
  repeat split.
  intros H. apply classified_failure_is_object in H. destruct H as [o H].
  discriminate.
Qed.

(** *** Resolution *)

Section ResolutionFacts.

Variable exec : list string -> ExecResult.
Variable JSON_parse : string -> option JSValue.
Variable SyntaxError_message : string -> string.

(** A discovery always answers with a response whose text is an object, and
    its first call is the listing. *)
Lemma getLabelSelectorLogs_returns labelSelector namespace input context t :
  exists r calls,
    getLabelSelectorLogs exec labelSelector namespace input context t
    = (inr r, (t ++ pods_args context namespace labelSelector :: calls)%list)
    /\ object_response r.
Proof.
  destruct (exec (pods_args context namespace labelSelector)) as [out|st m] eqn:E.
  - destruct (discovered out) as [|p ps] eqn:Ed.
    + rewrite (getLabelSelectorLogs_nothing exec _ _ _ _ out) by assumption.
      do 2 eexists; split; [reflexivity|]. eexists; reflexivity.
    + rewrite (getLabelSelectorLogs_fan_out exec _ _ _ _ out)
        by (assumption || (rewrite Ed; discriminate)).
      do 2 eexists; split; [reflexivity|]. eexists; reflexivity.
  - rewrite (getLabelSelectorLogs_listing_fails exec _ _ _ _ st m) by assumption.
    do 2 eexists; split; [reflexivity|]. apply handleCommandError_object.
Qed.

Lemma logs_of_result_object r t :
  object_response r -> logs_of_result r t = (inr (field "logs" r), t).
Proof.
  intros [o Ho]. unfold logs_of_result, field, document. rewrite Ho. reflexivity.
Qed.

Lemma collect_jobs_run context namespace input jobs allJobLogs t :
  collect_jobs exec context namespace input jobs allJobLogs t =
  (inr (fold_left (fun o job => Json.set job (job_logs exec context namespace input job) o)
                  jobs allJobLogs),
   (t ++ concat (map (job_calls exec context namespace input) jobs))%list).
Proof.
  revert allJobLogs t. induction jobs as [|job rest IH]; intros allJobLogs t.
  - simpl. unfold ret. now rewrite app_nil_r.
  - cbn [collect_jobs fold_left map concat]. unfold bind at 1.
    rewrite (framed_getLabelSelectorLogs exec _ _ _ _ t).
    unfold job_logs at 2, job_calls at 1, run.
    destruct (getLabelSelectorLogs_returns ("job-name=" ++ job) namespace input context [])
      as (r & calls & E & Hobj).
    rewrite E. cbn [fst snd]. unfold bind.
    rewrite logs_of_result_object by assumption.
    rewrite IH. now rewrite <- app_assoc.
Qed.

Lemma cronjob_logs_listing_fails name namespace input context st m t :
  exec (jobs_args context namespace name) = Fails st m ->
  cronjob_logs exec name namespace input context t =
  (inr (handleCommandError (Error st m) ("cronjob " ++ name)),
   (t ++ [jobs_args context namespace name])%list).
Proof.
  intros H. unfold cronjob_logs, try_catch, bind, execFileSync.
  rewrite H. reflexivity.
Qed.

Lemma cronjob_logs_nothing name namespace input context out t :
  exec (jobs_args context namespace name) = Stdout out ->
  discovered out = [] ->
  cronjob_logs exec name namespace input context t =
  (inr (mkResult
          [mkContent "text"
             (Serialized (JObj [("message", JStr (no_jobs_message name namespace))]))]
          false),
   (t ++ [jobs_args context namespace name])%list).
Proof.
  intros H Hd. apply nothing_listed_trim in Hd.
  unfold cronjob_logs, try_catch, bind, execFileSync.
  rewrite H, Hd. reflexivity.
Qed.

Lemma cronjob_logs_jobs name namespace input context out t :
  exec (jobs_args context namespace name) = Stdout out ->
  discovered out <> [] ->
  cronjob_logs exec name namespace input context t =
  (inr (mkResult
          (text_content
             (JObj [("cronjob", JStr name);
                    ("namespace", JStr namespace);
                    ("jobs",
                     JObj (fold_left
                             (fun o job =>
                                Json.set job (job_logs exec context namespace input job) o)
                             (Str.split " "%char (Str.trim out)) []))])) false),
   (t ++ jobs_args context namespace name
      :: concat (map (job_calls exec context namespace input)
                     (Str.split " "%char (Str.trim out))))%list).
Proof.
  intros H Hd.
  assert (Hn : nothing_listed (Str.split " "%char (Str.trim out)) = false).
  { destruct (nothing_listed _) eqn:E; [|reflexivity].
    apply nothing_listed_trim in E. contradiction. }
  unfold cronjob_logs, try_catch, bind, execFileSync.
  rewrite H, Hn, collect_jobs_run. unfold ret.
  now rewrite <- app_assoc.
Qed.

End ResolutionFacts.

Section RequestFacts.

Variable exec : list string -> ExecResult.
Variable JSON_parse : string -> option JSValue.
Variable SyntaxError_message : string -> string.

Lemma kubectlLogs_job input t :
  Str.toLowerCase (resourceType input) = "job" ->
  kubectlLogs exec JSON_parse SyntaxError_message input t =
  getLabelSelectorLogs exec ("job-name=" ++ name input) (namespace_of input)
    input (context input) t.
Proof.
  intros Hrt. unfold kubectlLogs. rewrite Hrt.
  decide_type "job". fold (namespace_of input).
  unfold try_catch at 1.
  destruct (getLabelSelectorLogs_returns exec ("job-name=" ++ name input)
              (namespace_of input) input (context input) t) as (r & calls & E & _).
  now rewrite E.
Qed.

Lemma kubectlLogs_cronjob input t :
  Str.toLowerCase (resourceType input) = "cronjob" ->
  kubectlLogs exec JSON_parse SyntaxError_message input t =
  cronjob_logs exec (name input) (namespace_of input) input (context input) t.
Proof.
  intros Hrt. unfold kubectlLogs. rewrite Hrt.
  decide_type "cronjob". fold (namespace_of input).
  unfold try_catch at 1.
  destruct (exec (jobs_args (context input) (namespace_of input) (name input)))
    as [out|st m] eqn:E.
  - destruct (discovered out) as [|j js] eqn:Ed.
    + now rewrite (cronjob_logs_nothing exec _ _ _ _ out).
    + rewrite (cronjob_logs_jobs exec _ _ _ _ out); [reflexivity|assumption|].
      rewrite Ed; discriminate.
  - now rewrite (cronjob_logs_listing_fails exec _ _ _ _ st m).
Qed.

Lemma kubectlLogs_pod input t :
  Str.toLowerCase (resourceType input) = "pod" ->
  kubectlLogs exec JSON_parse SyntaxError_message input t =
  (match exec (logs_args (context input) (namespace_of input) (name input) input) with
   | Stdout result => inr (formatLogOutput (name input) result)
   | Fails st m => inr (handleCommandError (Error st m) ("pod " ++ name input))
   end,
   (t ++ [logs_args (context input) (namespace_of input) (name input) input])%list).
Proof.
  intros Hrt. unfold kubectlLogs. rewrite Hrt.
  decide_type "pod". fold (namespace_of input).
  unfold try_catch, bind, execFileSync, ret.
  destruct (exec _); reflexivity.
Qed.

Lemma kubectlLogs_deployment_unreadable input st m t :
  Str.toLowerCase (resourceType input) = "deployment" ->
  exec (selector_args (context input) (namespace_of input) (name input)) = Fails st m ->
  kubectlLogs exec JSON_parse SyntaxError_message input t =
  (inr (handleCommandError (Error st m) ("deployment " ++ name input)),
   (t ++ [selector_args (context input) (namespace_of input) (name input)])%list).
Proof.
  intros Hrt H. unfold kubectlLogs, after_selector. rewrite Hrt.
  decide_type "deployment". fold (namespace_of input).
  unfold try_catch, bind, execFileSync, ret. rewrite H. reflexivity.
Qed.

Lemma kubectlLogs_deployment_unparsable input out t :
  Str.toLowerCase (resourceType input) = "deployment" ->
  exec (selector_args (context input) (namespace_of input) (name input)) = Stdout out ->
  JSON_parse (Str.replace_quotes (Str.trim out)) = None ->
  kubectlLogs exec JSON_parse SyntaxError_message input t =
  (inr (handleCommandError
          (Error None (SyntaxError_message (Str.replace_quotes (Str.trim out))))
          ("deployment " ++ name input)),
   (t ++ [selector_args (context input) (namespace_of input) (name input)])%list).
Proof.
  intros Hrt H Hp. unfold kubectlLogs, after_selector, deployment_selector. rewrite Hrt.
  decide_type "deployment". fold (namespace_of input).
  unfold try_catch, bind, execFileSync, ret, throw. rewrite H, Hp. reflexivity.
Qed.

Lemma kubectlLogs_deployment_resolved input out selector entries t :
  Str.toLowerCase (resourceType input) = "deployment" ->
  exec (selector_args (context input) (namespace_of input) (name input)) = Stdout out ->
  JSON_parse (Str.replace_quotes (Str.trim out)) = Some selector ->
  Json.Object_entries selector = Some entries ->
  kubectlLogs exec JSON_parse SyntaxError_message input t =
  getLabelSelectorLogs exec (render_selector entries) (namespace_of input) input
    (context input)
    (t ++ [selector_args (context input) (namespace_of input) (name input)])%list.
Proof.
  intros Hrt H Hp He. unfold kubectlLogs, after_selector, deployment_selector. rewrite Hrt.
  decide_type "deployment". fold (namespace_of input).
  unfold try_catch, bind, execFileSync, ret, throw. rewrite H, Hp, He.
  destruct (getLabelSelectorLogs_returns exec (render_selector entries)
              (namespace_of input) input (context input)
              (t ++ [selector_args (context input) (namespace_of input) (name input)])%list)
    as (r & calls & E & _).
  now rewrite E.
Qed.

Lemma kubectlLogs_by_selector input sel t :
  named_type (Str.toLowerCase (resourceType input)) = false ->
  truthy (labelSelector input) = Some sel ->
  kubectlLogs exec JSON_parse SyntaxError_message input t =
  getLabelSelectorLogs exec sel (namespace_of input) input (context input) t.
Proof.
  intros Hrt Hs. unfold named_type in Hrt.
  apply orb_false_iff in Hrt. destruct Hrt as [Hrt Hc].
  apply orb_false_iff in Hrt. destruct Hrt as [Hrt Hj].
  apply orb_false_iff in Hrt. destruct Hrt as [Hp Hd].
  unfold kubectlLogs. rewrite Hp, Hd, Hj, Hc, Hs. cbn [orb].
  fold (namespace_of input). unfold try_catch at 1.
  destruct (getLabelSelectorLogs_returns exec sel (namespace_of input) input
              (context input) t) as (r & calls & E & _).
  now rewrite E.
Qed.

Lemma kubectlLogs_unsupported input t :
  named_type (Str.toLowerCase (resourceType input)) = false ->
  truthy (labelSelector input) = None ->
  kubectlLogs exec JSON_parse SyntaxError_message input t =
  (inl (McpError InvalidRequest
          ("Unsupported resource type: " ++ Str.toLowerCase (resourceType input))), t).
Proof.
  intros Hrt Hs. unfold named_type in Hrt.
  apply orb_false_iff in Hrt. destruct Hrt as [Hrt Hc].
  apply orb_false_iff in Hrt. destruct Hrt as [Hrt Hj].
  apply orb_false_iff in Hrt. destruct Hrt as [Hp Hd].
  unfold kubectlLogs. rewrite Hp, Hd, Hj, Hc, Hs. cbn [orb].
  reflexivity.
Qed.

End RequestFacts.

Lemma general_classification error desc :
  error_status error <> Some 404%Z ->
  Str.includes "not found" (error_message error) = false ->
  Str.includes "a container name must be specified" (error_message error) = false ->
  handleCommandError error desc =
  mkResult
    [mkContent "text"
       (Serialized
          (JObj [("error", JStr ("Failed to get logs for " ++ desc ++ ": "
                                 ++ error_message error));
                 ("status", JStr "general_error");
                 ("original_error", JStr (error_message error))]))] true.
Proof.
  intros Hst Hnf Hm. unfold handleCommandError. rewrite Hnf, Hm, orb_false_r.
  destruct (error_status error) as [st|]; [|reflexivity].
  destruct (Z.eqb_spec st 404); [subst; contradiction|reflexivity].
Qed.

(** C5 (amended): for a deployment request the first call reads the
    deployment's match-labels; when the printed text parses to an object,
    the selector handed to the pod listing is its entries rendered
    key=value and joined by commas, in the entries' order, so that
    {app: x, tier: web} gives app=x,tier=web; when the read fails or the
    text does not parse, the response is the classifier's verdict on that
    failure, after that single call: [general_error] unless the not-found
    rule or the container marker applies to it. *)
Theorem C5_deployment_selector (exec : list string -> ExecResult)
    (JSON_parse : string -> option JSValue) (SyntaxError_message : string -> string)
    (input : Input) :
  Str.toLowerCase (resourceType input) = "deployment" ->
  (forall out labels,
      exec (selector_args (context input) (namespace_of input) (name input)) = Stdout out ->
      JSON_parse (Str.replace_quotes (Str.trim out)) = Some (JObj labels) ->
      exists r calls,
        run (kubectlLogs exec JSON_parse SyntaxError_message input)
        = (inr r,
           selector_args (context input) (namespace_of input) (name input)
           :: pods_args (context input) (namespace_of input)
                (Str.join "," (map (fun kv => fst kv ++ "=" ++ Json.to_string (snd kv))
                                   labels))
           :: calls)
        /\ run (kubectlLogs exec JSON_parse SyntaxError_message input)
           = getLabelSelectorLogs exec
               (Str.join "," (map (fun kv => fst kv ++ "=" ++ Json.to_string (snd kv))
                                  labels))
               (namespace_of input) input (context input)
               [selector_args (context input) (namespace_of input) (name input)])
  /\ Str.join "," (map (fun kv => fst kv ++ "=" ++ Json.to_string (snd kv))
                       [("app", JStr "x"); ("tier", JStr "web")])
     = "app=x,tier=web"
  /\ (forall st m,
      exec (selector_args (context input) (namespace_of input) (name input)) = Fails st m ->
      run (kubectlLogs exec JSON_parse SyntaxError_message input)
      = (inr (handleCommandError (Error st m) ("deployment " ++ name input)),
         [selector_args (context input) (namespace_of input) (name input)]))
  /\ (forall out,
      exec (selector_args (context input) (namespace_of input) (name input)) = Stdout out ->
      JSON_parse (Str.replace_quotes (Str.trim out)) = None ->
      run (kubectlLogs exec JSON_parse SyntaxError_message input)
      = (inr (handleCommandError
                (Error None (SyntaxError_message (Str.replace_quotes (Str.trim out))))
                ("deployment " ++ name input)),
         [selector_args (context input) (namespace_of input) (name input)]))
  /\ (forall error,
      error_status error <> Some 404%Z ->
      Str.includes "not found" (error_message error) = false ->
      Str.includes "a container name must be specified" (error_message error) = false ->
      classification (handleCommandError error ("deployment " ++ name input))
      = (JStr "general_error", true)).
Proof.
  intros Hrt. split; [|split; [|split; [|split]]].
  - intros out labels H Hp. unfold run.
    rewrite (kubectlLogs_deployment_resolved exec JSON_parse SyntaxError_message
               input out (JObj labels) labels []) by auto.
    fold (render_selector labels).
    destruct (getLabelSelectorLogs_returns exec (render_selector labels)
                (namespace_of input) input (context input)
                ([] ++ [selector_args (context input) (namespace_of input) (name input)])%list)
      as (r & calls & E & _).
    exists r, calls. split; [exact E|reflexivity].
  - reflexivity.
  - intros st m H. unfold run.
    now rewrite (kubectlLogs_deployment_unreadable exec JSON_parse SyntaxError_message
                   input st m []).
  - intros out H Hp. unfold run.
    now rewrite (kubectlLogs_deployment_unparsable exec JSON_parse SyntaxError_message
                   input out []).
  - intros error H1 H2 H3. now rewrite general_classification.
Qed.

Lemma C5_deployment_selector_witness :
  Str.toLowerCase (resourceType (plain_input "Deployment" "web" None)) = "deployment" /\
  run (kubectlLogs web_deployment
         (parse_only (Str.replace_quotes web_labels_text) web_labels) no_wording
         (plain_input "Deployment" "web" None))
  = getLabelSelectorLogs web_deployment "app=x,tier=web" "default"
      (plain_input "Deployment" "web" None) "ctx"
      [selector_args "ctx" "default" "web"].
Proof.
  split; [reflexivity|].
  destruct (C5_deployment_selector web_deployment
              (parse_only (Str.replace_quotes web_labels_text) web_labels) no_wording
              (plain_input "Deployment" "web" None) eq_refl) as (Ha & _).
  destruct (Ha web_labels_text [("app", JStr "x"); ("tier", JStr "web")] eq_refl eq_refl)
    as (r & calls & _ & E).
  exact E.
Defined.

(** C5, as stated, fails: the read of a deployment that does not exist
    fails, and the request is answered [not_found], not [general_error]. *)
Lemma C5_missing_deployment_is_not_found :
  exists r,
    run (kubectlLogs missing_deployment no_parser no_wording
           (plain_input "deployment" "web" None))
    = (inr r, [selector_args "ctx" "default" "web"])
    /\ document r
       = JObj [("error", JStr "Resource deployment web not found");
               ("status", JStr "not_found")]
    /\ classification r <> (JStr "general_error", true).
Proof.
  eexists. split; [reflexivity|]. split; [reflexivity|]. discriminate.
Qed.

Lemma job_calls_listing exec context namespace input job :
  In (pods_args context namespace ("job-name=" ++ job))
     (job_calls exec context namespace input job).
Proof.
  unfold job_calls, run.
  destruct (getLabelSelectorLogs_returns exec ("job-name=" ++ job) namespace input
              context []) as (r & calls & E & _).
  rewrite E. simpl. now left.
Qed.




(** Members left out by serialisation. *)
Lemma norm_drops_undefined k (o o' : JSObject) :
  (forall v, In (k, v) o -> v = JUndefined) ->
  Json.norm (JObj o) = JObj o' ->
  Json.has_key k o' = false.
Proof.
  revert o'. induction o as [|[k0 v0] o IH]; intros o' Hall Hn.
  - cbn in Hn. injection Hn as <-. reflexivity.
  - destruct (String.eqb_spec k k0) as [->|Hk].
    + rewrite (Hall v0 (or_introl eq_refl)) in Hn.
      apply IH; [|exact Hn]. intros v Hv. apply Hall. now right.
    + assert (Ho : exists o1, Json.norm (JObj o) = JObj o1) by (cbn; eauto).
      destruct Ho as [o1 Ho1].
      assert (H1 : Json.has_key k o1 = false).
      { apply IH; [|exact Ho1]. intros v Hv. apply Hall. now right. }
      cbn in Ho1. injection Ho1 as Ho1.
      cbn in Hn. rewrite Ho1 in Hn.
      destruct v0; injection Hn as <-; simpl;
        rewrite ?H1; try (apply String.eqb_neq in Hk; rewrite Hk); auto.
Qed.



(** The report of the cronjob with the jobs [j1] and [j2], as serialised. *)
Example cron_two_jobs_report :
  exists r calls,
    run (kubectlLogs cron_two_jobs no_parser no_wording
           (plain_input "cronjob" "nightly" None)) = (inr r, calls)
    /\ document r
       = JObj [("cronjob", JStr "nightly");
               ("namespace", JStr "default");
               ("jobs", JObj [("j1", JObj [("p1", JStr "done")])])].
Proof. do 2 eexists. split; reflexivity. Qed.

(** *** Classification of a failed fetch *)

(** C3: a failure whose status is 404 or whose message contains "not found"
    is classified [not_found], with the message "Resource <description> not
    found", for every resource description and whether or not the
    multi-container marker is present too; so is the response to a pod
    request whose log fetch fails that way. *)
Theorem C3_not_found_first (error : Thrown) (resourceDescription : string) :
  error_status error = Some 404%Z \/
  Str.includes "not found" (error_message error) = true ->
  handleCommandError error resourceDescription =
    mkResult
      [mkContent "text"
         (Serialized
            (JObj [("error", JStr ("Resource " ++ resourceDescription ++ " not found"));
                   ("status", JStr "not_found")]))] true
  /\ classification (handleCommandError error resourceDescription)
     = (JStr "not_found", true)
  /\ forall exec JSON_parse SyntaxError_message input,
       Str.toLowerCase (resourceType input) = "pod" ->
       exec (logs_args (context input) (namespace_of input) (name input) input)
       = Fails (error_status error) (error_message error) ->
       run (kubectlLogs exec JSON_parse SyntaxError_message input)
       = (inr (mkResult
                 [mkContent "text"
                    (Serialized
                       (JObj [("error", JStr ("Resource pod " ++ name input ++ " not found"));
                              ("status", JStr "not_found")]))] true),
          [logs_args (context input) (namespace_of input) (name input) input]).
Proof.
  intros H.
  assert (E : forall e desc,
             error_status e = error_status error ->
             error_message e = error_message error ->
             handleCommandError e desc =
             mkResult
               [mkContent "text"
                  (Serialized
                     (JObj [("error", JStr ("Resource " ++ desc ++ " not found"));
                            ("status", JStr "not_found")]))] true).
  { intros e desc Hs Hm. unfold handleCommandError. rewrite Hs, Hm.
    destruct H as [-> | ->]; [simpl|rewrite orb_true_r]; reflexivity. }
  split; [now apply E|]. split; [now rewrite E|].
  intros exec JSON_parse SyntaxError_message input Hrt Hx. unfold run.
  rewrite kubectlLogs_pod by assumption. rewrite Hx.
  now rewrite (E (Error (error_status error) (error_message error))).
Qed.

Lemma C3_not_found_first_witness :
  Str.includes "not found" (error_message both_markers_failure) = true /\
  Str.includes "a container name must be specified"
    (error_message both_markers_failure) = true /\
  classification (handleCommandError both_markers_failure "pod web-1")
  = (JStr "not_found", true).
Proof.
  split; [reflexivity|split; [reflexivity|]].
  apply (C3_not_found_first both_markers_failure "pod web-1").
  right; reflexivity.
Defined.

(** *** Requests outside the four named types *)

(** C7 (amended): a request whose lower-cased resource type is none of pod,
    deployment, job and cronjob, and which carries no non-empty label
    selector, is refused with the error [InvalidRequest] "Unsupported
    resource type: <type>" without any external call. *)
Theorem C7_unsupported_type (exec : list string -> ExecResult)
    (JSON_parse : string -> option JSValue) (SyntaxError_message : string -> string)
    (input : Input) :
  named_type (Str.toLowerCase (resourceType input)) = false ->
  truthy (labelSelector input) = None ->
  run (kubectlLogs exec JSON_parse SyntaxError_message input)
  = (inl (McpError InvalidRequest
            ("Unsupported resource type: " ++ Str.toLowerCase (resourceType input))),
     []).
Proof.
  intros Hrt Hs. unfold run. now apply kubectlLogs_unsupported.
Qed.

Lemma C7_unsupported_type_witness :
  named_type (Str.toLowerCase (resourceType (plain_input "StatefulSet" "web" None))) = false /\
  truthy (labelSelector (plain_input "StatefulSet" "web" None)) = None /\
  run (kubectlLogs three_pods no_parser no_wording (plain_input "StatefulSet" "web" None))
  = (inl (McpError InvalidRequest "Unsupported resource type: statefulset"), []).
Proof.
  split; [reflexivity|split; [reflexivity|]].
  apply (C7_unsupported_type three_pods no_parser no_wording
           (plain_input "StatefulSet" "web" None)); reflexivity.
Defined.

(** C7, as stated, fails: the type [statefulset] is outside the supported
    set, yet with a label selector the request is served, by four external
    calls, and no error is raised. *)
Lemma C7_other_type_with_selector_is_served :
  named_type "statefulset" = false /\
  String.eqb "statefulset" "label-group" = false /\
  exists r,
    run (kubectlLogs three_pods no_parser no_wording
           (plain_input "statefulset" "web" (Some "app=x")))
    = (inr r,
       [pods_args "ctx" "default" "app=x";
        logs_args "ctx" "default" "a" (plain_input "pod" "" None);
        logs_args "ctx" "default" "b" (plain_input "pod" "" None);
        logs_args "ctx" "default" "c" (plain_input "pod" "" None)])
    /\ isError r = false
    /\ field "logs" r
       = JObj [("a", JStr "log of a");
               ("b", JStr "Error: container is waiting");
               ("c", JStr "log of c")].
Proof.
  split; [reflexivity|split; [reflexivity|]].
  eexists. split; [reflexivity|]. split; reflexivity.
Qed.

(** C10: a request whose lower-cased resource type is none of the four
    names and which carries a non-empty label selector is answered exactly
    as the discovery for that selector, unchanged, in the request's
    namespace: its first call lists the pods of that selector, and when
    pods are listed the report is [{selector, namespace, logs}].  With such
    a type the unsupported-type error is raised if and only if the label
    selector is absent or empty. *)
Theorem C10_label_selector_route (exec : list string -> ExecResult)
    (JSON_parse : string -> option JSValue) (SyntaxError_message : string -> string)
    (input : Input) :
  named_type (Str.toLowerCase (resourceType input)) = false ->
  (forall sel,
      labelSelector input = Some sel -> sel <> "" ->
      run (kubectlLogs exec JSON_parse SyntaxError_message input)
      = run (getLabelSelectorLogs exec sel (namespace_of input) input (context input))
      /\ (exists r calls,
            run (kubectlLogs exec JSON_parse SyntaxError_message input)
            = (inr r, pods_args (context input) (namespace_of input) sel :: calls))
      /\ (forall out,
            exec (pods_args (context input) (namespace_of input) sel) = Stdout out ->
            discovered out <> [] ->
            exists r logsMap,
              fst (run (kubectlLogs exec JSON_parse SyntaxError_message input)) = inr r
              /\ isError r = false
              /\ document r = JObj [("selector", JStr sel);
                                    ("namespace", JStr (namespace_of input));
                                    ("logs", JObj logsMap)]))
  /\ (truthy (labelSelector input) = None <->
      run (kubectlLogs exec JSON_parse SyntaxError_message input)
      = (inl (McpError InvalidRequest
                ("Unsupported resource type: " ++ Str.toLowerCase (resourceType input))),
         [])).
Proof.
  intros Hrt. split.
  - intros sel Hsel Hne.
    assert (Ht : truthy (labelSelector input) = Some sel).
    { rewrite Hsel. destruct sel; [contradiction|reflexivity]. }
    assert (E : run (kubectlLogs exec JSON_parse SyntaxError_message input)
                = run (getLabelSelectorLogs exec sel (namespace_of input) input
                         (context input))).
    { unfold run. now apply kubectlLogs_by_selector. }
    split; [exact E|split].
    + rewrite E. unfold run.
      destruct (getLabelSelectorLogs_returns exec sel (namespace_of input) input
                  (context input) []) as (r & calls & Er & _).
      exists r, calls. exact Er.
    + intros out Ho Hd. rewrite E. unfold run.
      rewrite (getLabelSelectorLogs_fan_out exec _ _ _ _ out) by assumption.
      do 2 eexists. split; [reflexivity|split; reflexivity].
  - split.
    + intros Hs. unfold run. now apply kubectlLogs_unsupported.
    + intros Hthrow.
      destruct (truthy (labelSelector input)) as [sel|] eqn:Ht; [|reflexivity].
      unfold run in Hthrow.
      rewrite (kubectlLogs_by_selector exec JSON_parse SyntaxError_message input sel [])
        in Hthrow by assumption.
      destruct (getLabelSelectorLogs_returns exec sel (namespace_of input) input
                  (context input) []) as (r & calls & Er & _).
      rewrite Er in Hthrow. discriminate.
Qed.

Lemma C10_label_selector_route_witness :
  named_type (Str.toLowerCase
                (resourceType (plain_input "statefulset" "web" (Some "app=x")))) = false /\
  run (kubectlLogs three_pods no_parser no_wording
         (plain_input "statefulset" "web" (Some "app=x")))
  = run (getLabelSelectorLogs three_pods "app=x" "default"
           (plain_input "statefulset" "web" (Some "app=x")) "ctx").
Proof.
  split; [reflexivity|].
  destruct (C10_label_selector_route three_pods no_parser no_wording
              (plain_input "statefulset" "web" (Some "app=x")) eq_refl) as (Hroute & _).
  destruct (Hroute "app=x" eq_refl) as (E & _); [discriminate|exact E].
Defined.

(** *** Dependence on the external calls *)

Section TwoWorlds.

Variables exec1 exec2 : list string -> ExecResult.
Variable JSON_parse : string -> option JSValue.
Variable SyntaxError_message : string -> string.

Lemma agree_on_prefix (t t' : Trace) :
  agree_on exec1 exec2 (t ++ t')%list -> agree_on exec1 exec2 t.
Proof. intros H args Hin. apply H, in_or_app. now left. Qed.

Lemma coincide_ret {A : Type} (a : A) : coincide exec1 exec2 (ret a) (ret a).
Proof.
  intros t. split; [exists []; simpl; now rewrite app_nil_r|reflexivity].
Qed.

Lemma coincide_throw {A : Type} (e : Thrown) :
  coincide exec1 exec2 (@throw A e) (@throw A e).
Proof.
  intros t. split; [exists []; simpl; now rewrite app_nil_r|reflexivity].
Qed.

Lemma coincide_execFileSync args :
  coincide exec1 exec2 (execFileSync exec1 args) (execFileSync exec2 args).
Proof.
  intros t. unfold execFileSync; simpl. split; [now exists [args]|].
  intros H. rewrite (H args); [reflexivity|].
  apply in_or_app. right. now left.
Qed.

Lemma coincide_bind {A B : Type} (m1 m2 : M A) (k1 k2 : A -> M B) :
  coincide exec1 exec2 m1 m2 ->
  (forall a, coincide exec1 exec2 (k1 a) (k2 a)) ->
  coincide exec1 exec2 (bind m1 k1) (bind m2 k2).
Proof.
  intros Hm Hk t. unfold bind.
  destruct (Hm t) as [[t1 Ht1] Heq].
  destruct (m1 t) as [[e|a] tm] eqn:E1; simpl in Ht1; subst tm.
  - split; [now exists t1|]. simpl. intros H. now rewrite <- (Heq H).
  - destruct (Hk a (t ++ t1)%list) as [[t2 Ht2] Heq2].
    split.
    + exists (t1 ++ t2)%list. now rewrite Ht2, app_assoc.
    + intros H. rewrite <- Heq.
      * now apply Heq2.
      * simpl. rewrite Ht2 in H. now apply agree_on_prefix in H.
Qed.

Lemma coincide_try {A : Type} (m1 m2 : M A) (h1 h2 : Thrown -> M A) :
  coincide exec1 exec2 m1 m2 ->
  (forall e, coincide exec1 exec2 (h1 e) (h2 e)) ->
  coincide exec1 exec2 (try_catch m1 h1) (try_catch m2 h2).
Proof.
  intros Hm Hh t. unfold try_catch.
  destruct (Hm t) as [[t1 Ht1] Heq].
  destruct (m1 t) as [[e|a] tm] eqn:E1; simpl in Ht1; subst tm.
  - destruct (Hh e (t ++ t1)%list) as [[t2 Ht2] Heq2].
    split.
    + exists (t1 ++ t2)%list. now rewrite Ht2, app_assoc.
    + intros H. rewrite <- Heq.
      * now apply Heq2.
      * simpl. rewrite Ht2 in H. now apply agree_on_prefix in H.
  - split; [now exists t1|]. simpl. intros H. now rewrite <- (Heq H).
Qed.

Lemma coincide_fetch_each context namespace input pods logsMap :
  coincide exec1 exec2
    (fetch_each exec1 context namespace input pods logsMap)
    (fetch_each exec2 context namespace input pods logsMap).
Proof.
  revert logsMap. induction pods as [|pod rest IH]; intros logsMap; cbn [fetch_each].
  - apply coincide_ret.
  - destruct (String.eqb pod ""); [apply IH|].
    apply coincide_bind; [|intros; apply IH].
    apply coincide_try; [|intros; apply coincide_ret].
    apply coincide_bind; [apply coincide_execFileSync|intros; apply coincide_ret].
Qed.

Lemma coincide_getLabelSelectorLogs labelSelector namespace input context :
  coincide exec1 exec2
    (getLabelSelectorLogs exec1 labelSelector namespace input context)
    (getLabelSelectorLogs exec2 labelSelector namespace input context).
Proof.
  unfold getLabelSelectorLogs.
  apply coincide_try; [|intros; apply coincide_ret].
  apply coincide_bind; [apply coincide_execFileSync|]. intros out.
  destruct (nothing_listed _); [apply coincide_ret|].
  apply coincide_bind; [apply coincide_fetch_each|intros; apply coincide_ret].
Qed.

Lemma coincide_logs_of_result r :
  coincide exec1 exec2 (logs_of_result r) (logs_of_result r).
Proof.
  unfold logs_of_result.
  destruct (content r); [apply coincide_throw|].
  destruct (Json.member _ _); [apply coincide_ret|apply coincide_throw].
Qed.

Lemma coincide_collect_jobs context namespace input jobs allJobLogs :
  coincide exec1 exec2
    (collect_jobs exec1 context namespace input jobs allJobLogs)
    (collect_jobs exec2 context namespace input jobs allJobLogs).
Proof.
  revert allJobLogs. induction jobs as [|job rest IH]; intros allJobLogs;
    cbn [collect_jobs].
  - apply coincide_ret.
  - apply coincide_bind; [apply coincide_getLabelSelectorLogs|]. intros result.
    apply coincide_bind; [apply coincide_logs_of_result|]. intros logs. apply IH.
Qed.

Lemma coincide_cronjob_logs name namespace input context :
  coincide exec1 exec2
    (cronjob_logs exec1 name namespace input context)
    (cronjob_logs exec2 name namespace input context).
Proof.
  unfold cronjob_logs.
  apply coincide_try; [|intros; apply coincide_ret].
  apply coincide_bind; [apply coincide_execFileSync|]. intros out.
  destruct (nothing_listed _); [apply coincide_ret|].
  apply coincide_bind; [apply coincide_collect_jobs|intros; apply coincide_ret].
Qed.

Lemma coincide_deployment_selector selectorJson :
  coincide exec1 exec2
    (deployment_selector JSON_parse SyntaxError_message selectorJson)
    (deployment_selector JSON_parse SyntaxError_message selectorJson).
Proof.
  unfold deployment_selector.
  destruct (JSON_parse _); [|apply coincide_throw].
  destruct (Json.Object_entries _); [apply coincide_ret|apply coincide_throw].
Qed.

Lemma coincide_after_selector resourceType name namespace input context selectorArgs :
  coincide exec1 exec2
    (after_selector exec1 JSON_parse SyntaxError_message resourceType name namespace
       input context selectorArgs)
    (after_selector exec2 JSON_parse SyntaxError_message resourceType name namespace
       input context selectorArgs).
Proof.
  unfold after_selector.
  apply coincide_try; [|intros; apply coincide_ret].
  destruct (String.eqb resourceType "deployment"); [|apply coincide_ret].
  destruct selectorArgs as [args|]; [|apply coincide_throw].
  apply coincide_bind; [apply coincide_execFileSync|]. intros out.
  apply coincide_bind; [apply coincide_deployment_selector|]. intros sel.
  apply coincide_getLabelSelectorLogs.
Qed.

Lemma coincide_kubectlLogs input :
  coincide exec1 exec2
    (kubectlLogs exec1 JSON_parse SyntaxError_message input)
    (kubectlLogs exec2 JSON_parse SyntaxError_message input).
Proof.
  unfold kubectlLogs.
  apply coincide_try; [|intros [st m|c m]; apply coincide_throw].
  destruct (String.eqb _ "pod").
  - apply coincide_try; [|intros; apply coincide_ret].
    apply coincide_bind; [apply coincide_execFileSync|intros; apply coincide_ret].
  - destruct (_ || _).
    + destruct (String.eqb _ "deployment"); [apply coincide_after_selector|].
      destruct (String.eqb _ "job"); [apply coincide_getLabelSelectorLogs|].
      destruct (String.eqb _ "cronjob");
        [apply coincide_cronjob_logs|apply coincide_after_selector].
    + destruct (truthy _); [apply coincide_getLabelSelectorLogs|apply coincide_throw].
Qed.

End TwoWorlds.

(** C8: the outcome of a request depends on the outside world only through
    the results of the external calls it makes: two runs for which every
    call made by the first gets the same result give the same calls in the
    same order and the same response, hence the same identifier keys in the
    same order and the same classification. *)
Theorem C8_deterministic_in_call_results (exec1 exec2 : list string -> ExecResult)
    (JSON_parse : string -> option JSValue) (SyntaxError_message : string -> string)
    (input : Input) :
  agree_on exec1 exec2
    (snd (run (kubectlLogs exec1 JSON_parse SyntaxError_message input))) ->
  run (kubectlLogs exec1 JSON_parse SyntaxError_message input)
  = run (kubectlLogs exec2 JSON_parse SyntaxError_message input)
  /\ forall r1 r2,
       fst (run (kubectlLogs exec1 JSON_parse SyntaxError_message input)) = inr r1 ->
       fst (run (kubectlLogs exec2 JSON_parse SyntaxError_message input)) = inr r2 ->
       identifier_keys r1 = identifier_keys r2 /\
       classification r1 = classification r2.
Proof.
  intros H.
  assert (E : run (kubectlLogs exec1 JSON_parse SyntaxError_message input)
              = run (kubectlLogs exec2 JSON_parse SyntaxError_message input)).
  { unfold run in *.
    now apply (coincide_kubectlLogs exec1 exec2 JSON_parse SyntaxError_message input []). }
  split; [exact E|].
  intros r1 r2 H1 H2. rewrite E in H1. rewrite H1 in H2.
  injection H2 as <-. split; reflexivity.
Qed.

Lemma C8_deterministic_in_call_results_witness :
  three_pods ["version"] <> three_pods_elsewhere ["version"] /\
  run (kubectlLogs three_pods no_parser no_wording
         (plain_input "statefulset" "x" (Some "app=x")))
  = run (kubectlLogs three_pods_elsewhere no_parser no_wording
           (plain_input "statefulset" "x" (Some "app=x"))).
Proof.
  split; [discriminate|].
  apply (C8_deterministic_in_call_results three_pods three_pods_elsewhere
           no_parser no_wording (plain_input "statefulset" "x" (Some "app=x"))).
  intros args Hin. vm_compute in Hin.
  destruct Hin as [<-|[<-|[<-|[<-|[]]]]]; reflexivity.
Defined.

(** ** Further properties of the log tool *)

(** *** What a request may raise *)

Lemma try_catch_ret_returns {A : Type} (m : M A) (f : Thrown -> A) t :
  exists a t', try_catch m (fun e => ret (f e)) t = (inr a, t').
Proof.
  unfold try_catch, ret. destruct (m t) as [[e|a] t']; eauto.
Qed.





(** *** The classifier, as a whole *)

(** X2: the classifier always answers with an error response whose status
    is one of [not_found], [multi_container_error] and [general_error]:
    [not_found] exactly under the not-found rule, [multi_container_error]
    exactly when that rule fails and the container marker is present, and
    [general_error] otherwise, in which case the original message is kept
    unchanged, alone and inside the description. *)
Theorem X2_classifier_is_total_and_exclusive (error : Thrown) (desc : string) :
  isError (handleCommandError error desc) = true /\
  ((match error_status error with Some st => Z.eqb st 404 | None => false end
    || Str.includes "not found" (error_message error) = true /\
    field "status" (handleCommandError error desc) = JStr "not_found")
   \/
   (match error_status error with Some st => Z.eqb st 404 | None => false end
    || Str.includes "not found" (error_message error) = false /\
    Str.includes "a container name must be specified" (error_message error) = true /\
    field "status" (handleCommandError error desc) = JStr "multi_container_error")
   \/
   (match error_status error with Some st => Z.eqb st 404 | None => false end
    || Str.includes "not found" (error_message error) = false /\
    Str.includes "a container name must be specified" (error_message error) = false /\
    field "status" (handleCommandError error desc) = JStr "general_error" /\
    field "original_error" (handleCommandError error desc) = JStr (error_message error) /\
    field "error" (handleCommandError error desc)
    = JStr ("Failed to get logs for " ++ desc ++ ": " ++ error_message error))).
Proof.
  split; [apply handleCommandError_isError|].
  destruct (match error_status error with Some st => Z.eqb st 404 | None => false end
            || Str.includes "not found" (error_message error)) eqn:H1.
  - left. split; [reflexivity|]. unfold handleCommandError. rewrite H1. reflexivity.
  - destruct (Str.includes "a container name must be specified" (error_message error))
      eqn:H2.
    + right; left. split; [reflexivity|split; [reflexivity|]].
      rewrite multi_container_document by assumption. reflexivity.
    + right; right. split; [reflexivity|split; [reflexivity|]].
      unfold handleCommandError. rewrite H1, H2. repeat split.
Qed.

(** *** Log options *)

Lemma addLogOptions_app args input :
  addLogOptions args input = (args ++ addLogOptions [] input)%list.
Proof.
  unfold addLogOptions, push.
  destruct (tail input), (truthy (since input)), (truthy (sinceTime input)),
    (timestamps input), (previous input), (follow input);
    cbn [app]; rewrite <- ?app_assoc; cbn [app]; rewrite ?app_nil_r; reflexivity.
Qed.


(** *** The fan-out over any listing *)

Lemma has_key_set k k' v o :
  Json.has_key k (Json.set k' v o)
  = Json.has_key k o || (String.eqb k k' && negb (String.eqb k' "__proto__")).
Proof.
  destruct (String.eqb_spec k k') as [->|Hk].
  - unfold Json.set. destruct (String.eqb k' "__proto__") eqn:Ep; cbn [negb andb].
    + now rewrite orb_false_r.
    + rewrite orb_true_r. destruct (Json.has_key k' o) eqn:Eh.
      * now rewrite has_key_overwrite.
      * destruct (Json.array_index k').
        -- now rewrite has_key_insert_index, String.eqb_refl.
        -- now rewrite has_key_app, String.eqb_refl.
  - cbn [andb]. rewrite orb_false_r. now apply has_key_set_other.
Qed.

Lemma nodup_keys_set k v o :
  NoDup (Json.keys o) -> NoDup (Json.keys (Json.set k v o)).
Proof.
  intros Hnd. unfold Json.set.
  destruct (String.eqb k "__proto__") eqn:Ep; [assumption|].
  destruct (Json.has_key k o) eqn:Eh.
  - now rewrite keys_overwrite.
  - assert (Hperm : Permutation (k :: Json.keys o) (Json.keys (Json.set k v o))).
    { symmetry. apply keys_set_new; [now apply String.eqb_neq|assumption]. }
    unfold Json.set in Hperm. rewrite Ep, Eh in Hperm.
    eapply Permutation_NoDup; [exact Hperm|].
    constructor; [|assumption].
    intros Hin. apply has_key_in in Hin. congruence.
Qed.

Section AssignmentsAgain.

Variable g : string -> JSValue.

Lemma nodup_keys_assign ks o :
  NoDup (Json.keys o) ->
  NoDup (Json.keys (fold_left (fun o k => Json.set k (g k) o) ks o)).
Proof.
  revert o; induction ks as [|k ks IH]; intros o H; simpl; [assumption|].
  apply IH. now apply nodup_keys_set.
Qed.

Lemma has_key_assign ks k o :
  Json.has_key k (fold_left (fun o k => Json.set k (g k) o) ks o) = true <->
  Json.has_key k o = true \/ (In k ks /\ k <> "__proto__").
Proof.
  revert o; induction ks as [|k0 ks IH]; intros o; simpl.
  - tauto.
  - rewrite IH, has_key_set, orb_true_iff, andb_true_iff, negb_true_iff,
      String.eqb_eq, String.eqb_neq.
    split.
    + intros [[H|[-> H]]|[H1 H2]]; auto.
    + intros [H|[[->|H1] H2]]; auto.
Qed.

End AssignmentsAgain.

(** X4: for any listing that names at least one pod, repeated names
    included, every listed name is fetched, once per occurrence and in
    listing order, after the listing call; the [logs] object has no key
    twice, its keys are exactly the listed names other than [__proto__], and
    each such name reads back the text recorded for its fetch.  Hence it
    never has more entries than names were listed. *)
Theorem X4_fan_out_over_any_listing (exec : list string -> ExecResult)
    (labelSelector namespace : string) (input : Input) (context out : string) :
  exec (pods_args context namespace labelSelector) = Stdout out ->
  discovered out <> [] ->
  exists logsMap,
    run (getLabelSelectorLogs exec labelSelector namespace input context)
    = (inr (mkResult
              [mkContent "text"
                 (Serialized (JObj [("selector", JStr labelSelector);
                                    ("namespace", JStr namespace);
                                    ("logs", JObj logsMap)]))] false),
       pods_args context namespace labelSelector
         :: map (fun pod => logs_args context namespace pod input) (discovered out))
    /\ NoDup (Json.keys logsMap)
    /\ (forall k, In k (Json.keys logsMap) <->
                  In k (discovered out) /\ k <> "__proto__")
    /\ (forall pod, In pod (discovered out) -> pod <> "__proto__" ->
                    Json.get pod logsMap
                    = JStr (match exec (logs_args context namespace pod input) with
                            | Stdout logs => logs
                            | Fails _ m => "Error: " ++ m
                            end))
    /\ length logsMap <= length (discovered out).
Proof.
  intros H Hne.
  set (g := fun pod => JStr (entry_text exec context namespace input pod)).
  exists (fold_left (fun o pod => Json.set pod (g pod) o) (discovered out) []).
  assert (Hnd : NoDup (Json.keys (fold_left (fun o pod => Json.set pod (g pod) o)
                                            (discovered out) []))).
  { apply nodup_keys_assign. constructor. }
  assert (Hk : forall k,
             In k (Json.keys (fold_left (fun o pod => Json.set pod (g pod) o)
                                        (discovered out) [])) <->
             In k (discovered out) /\ k <> "__proto__").
  { intros k. rewrite <- has_key_in, has_key_assign. simpl.
    split; [intros [H0|H0]; [discriminate|exact H0]|now right]. }
  split; [|split; [|split; [|split]]].
  - unfold run. now rewrite (getLabelSelectorLogs_fan_out exec _ _ _ _ out).
  - exact Hnd.
  - exact Hk.
  - intros pod Hin Hp. now rewrite (get_assign g).
  - unfold Json.keys in Hnd, Hk.
    rewrite <- (length_map fst).
    apply NoDup_incl_length; [exact Hnd|].
    intros k Hin. now apply Hk in Hin.
Qed.

Lemma X4_fan_out_over_any_listing_witness :
  discovered "a a b" = ["a"; "a"; "b"] /\
  exists logsMap,
    run (getLabelSelectorLogs repeated_pod "app=x" "default"
           (plain_input "pod" "" None) "ctx")
    = (inr (mkResult
              [mkContent "text"
                 (Serialized (JObj [("selector", JStr "app=x");
                                    ("namespace", JStr "default");
                                    ("logs", JObj logsMap)]))] false),
       [pods_args "ctx" "default" "app=x";
        logs_args "ctx" "default" "a" (plain_input "pod" "" None);
        logs_args "ctx" "default" "a" (plain_input "pod" "" None);
        logs_args "ctx" "default" "b" (plain_input "pod" "" None)])
    /\ NoDup (Json.keys logsMap)
    /\ length logsMap <= 3.
Proof.
  split; [reflexivity|].
  assert (Hne : discovered "a a b" <> []) by discriminate.
  destruct (X4_fan_out_over_any_listing repeated_pod "app=x" "default"
              (plain_input "pod" "" None) "ctx" "a a b" eq_refl Hne)
    as (logsMap & Hrun & Hnd & _ & _ & Hlen).
  exists logsMap. split; [exact Hrun|split; [exact Hnd|exact Hlen]].
Defined.

(** *** What a request depends on *)

Section SameFetch.

Variable exec : list string -> ExecResult.
Variable JSON_parse : string -> option JSValue.
Variable SyntaxError_message : string -> string.
Variables i1 i2 : Input.
Hypothesis Hsame : same_fetch_options i1 i2.

Lemma logs_args_same context namespace pod :
  logs_args context namespace pod i1 = logs_args context namespace pod i2.
Proof.
  destruct Hsame as (Hc & Ht & Hs & Hst & Hts & Hp & Hf).
  unfold logs_args, addLogOptions. now rewrite Hc, Ht, Hs, Hst, Hts, Hp, Hf.
Qed.

Lemma fetch_each_same context namespace pods logsMap t :
  fetch_each exec context namespace i1 pods logsMap t
  = fetch_each exec context namespace i2 pods logsMap t.
Proof.
  revert logsMap t. induction pods as [|pod rest IH]; intros logsMap t;
    cbn [fetch_each]; [reflexivity|].
  destruct (String.eqb pod ""); [apply IH|].
  unfold bind, try_catch. rewrite logs_args_same.
  destruct (execFileSync exec (logs_args context namespace pod i2) t) as [[e|logs] t'];
    unfold ret; apply IH.
Qed.

Lemma getLabelSelectorLogs_same labelSelector namespace context t :
  getLabelSelectorLogs exec labelSelector namespace i1 context t
  = getLabelSelectorLogs exec labelSelector namespace i2 context t.
Proof.
  unfold getLabelSelectorLogs, try_catch, bind.
  destruct (execFileSync exec (pods_args context namespace labelSelector) t)
    as [[e|out] t']; [reflexivity|].
  destruct (nothing_listed _); [reflexivity|].
  now rewrite fetch_each_same.
Qed.

Lemma collect_jobs_same context namespace jobs allJobLogs t :
  collect_jobs exec context namespace i1 jobs allJobLogs t
  = collect_jobs exec context namespace i2 jobs allJobLogs t.
Proof.
  revert allJobLogs t. induction jobs as [|job rest IH]; intros allJobLogs t;
    cbn [collect_jobs]; [reflexivity|].
  unfold bind. rewrite getLabelSelectorLogs_same.
  destruct (getLabelSelectorLogs exec _ namespace i2 context t) as [[e|r] t'];
    [reflexivity|].
  destruct (logs_of_result r t') as [[e|logs] t'']; [reflexivity|apply IH].
Qed.

Lemma cronjob_logs_same name namespace context t :
  cronjob_logs exec name namespace i1 context t
  = cronjob_logs exec name namespace i2 context t.
Proof.
  unfold cronjob_logs, try_catch, bind.
  destruct (execFileSync exec (jobs_args context namespace name) t)
    as [[e|out] t']; [reflexivity|].
  destruct (nothing_listed _); [reflexivity|].
  now rewrite collect_jobs_same.
Qed.

Lemma after_selector_same resourceType name namespace context selectorArgs t :
  after_selector exec JSON_parse SyntaxError_message resourceType name namespace
    i1 context selectorArgs t
  = after_selector exec JSON_parse SyntaxError_message resourceType name namespace
      i2 context selectorArgs t.
Proof.
  unfold after_selector, try_catch.
  destruct (String.eqb resourceType "deployment"); [|reflexivity].
  destruct selectorArgs as [args|]; [|reflexivity].
  unfold bind.
  destruct (execFileSync exec args t) as [[e|out] t']; [reflexivity|].
  destruct (deployment_selector JSON_parse SyntaxError_message (Str.trim out) t')
    as [[e|sel] t'']; [reflexivity|].
  now rewrite getLabelSelectorLogs_same.
Qed.

End SameFetch.

(** X5: the answer to a log request depends on the request only through
    its resource type up to letter case, its name, its context, its
    namespace with the empty one standing for default, its label selector,
    container, since and sinceTime up to emptiness, and its other log
    options: two requests that agree on these get the same calls and the
    same outcome. *)
Theorem X5_requests_told_apart (exec : list string -> ExecResult)
    (JSON_parse : string -> option JSValue) (SyntaxError_message : string -> string)
    (i1 i2 : Input) :
  same_request i1 i2 ->
  run (kubectlLogs exec JSON_parse SyntaxError_message i1)
  = run (kubectlLogs exec JSON_parse SyntaxError_message i2).
Proof.
  intros (Hrt & Hname & Hns & Hctx & Hsel & Hopt).
  unfold run, kubectlLogs.
  fold (namespace_of i1). fold (namespace_of i2).
  rewrite Hrt, Hname, Hns, Hctx, Hsel.
  unfold try_catch at 1. unfold try_catch at 3.
  destruct (String.eqb (Str.toLowerCase (resourceType i2)) "pod").
  - now rewrite (logs_args_same i1 i2 Hopt).
  - destruct (_ || _).
    + destruct (String.eqb _ "deployment");
        [now rewrite (after_selector_same exec JSON_parse SyntaxError_message i1 i2 Hopt)|].
      destruct (String.eqb _ "job");
        [now rewrite (getLabelSelectorLogs_same exec i1 i2 Hopt)|].
      destruct (String.eqb _ "cronjob");
        [now rewrite (cronjob_logs_same exec i1 i2 Hopt)
        |now rewrite (after_selector_same exec JSON_parse SyntaxError_message i1 i2 Hopt)].
    + destruct (truthy (labelSelector i2));
        [now rewrite (getLabelSelectorLogs_same exec i1 i2 Hopt)|reflexivity].
Qed.

Lemma X5_requests_told_apart_witness :
  run (kubectlLogs three_pods no_parser no_wording
         (mkInput "Job" "x" "" (Some "") None (Some "") None false false false
                  (Some "") "ctx"))
  = run (kubectlLogs three_pods no_parser no_wording
           (mkInput "JOB" "x" "default" None None None (Some "") false false false
                    None "ctx")).
Proof.
  apply (X5_requests_told_apart three_pods no_parser no_wording).
  repeat split.
Defined.

(** X6: a job request is answered exactly as a request of an unnamed type
    that carries the label selector job-name=<name>, for the same
    namespace, context and fetch options. *)
Theorem X6_job_is_a_label_selector (exec : list string -> ExecResult)
    (JSON_parse : string -> option JSValue) (SyntaxError_message : string -> string)
    (i1 i2 : Input) :
  Str.toLowerCase (resourceType i1) = "job" ->
  named_type (Str.toLowerCase (resourceType i2)) = false ->
  labelSelector i2 = Some ("job-name=" ++ name i1) ->
  namespace_of i1 = namespace_of i2 ->
  context i1 = context i2 ->
  same_fetch_options i1 i2 ->
  run (kubectlLogs exec JSON_parse SyntaxError_message i1)
  = run (kubectlLogs exec JSON_parse SyntaxError_message i2).
Proof.
  intros Hj Hn Hsel Hns Hctx Hopt. unfold run.
  rewrite kubectlLogs_job by assumption.
  rewrite (kubectlLogs_by_selector exec JSON_parse SyntaxError_message i2
             ("job-name=" ++ name i1)); [|assumption|now rewrite Hsel].
  rewrite Hns, Hctx. apply getLabelSelectorLogs_same. exact Hopt.
Qed.

Lemma X6_job_is_a_label_selector_witness :
  run (kubectlLogs backup_job no_parser no_wording (plain_input "job" "backup" None))
  = run (kubectlLogs backup_job no_parser no_wording
           (plain_input "anything" "" (Some "job-name=backup"))).
Proof.
  apply (X6_job_is_a_label_selector backup_job no_parser no_wording
           (plain_input "job" "backup" None)
           (plain_input "anything" "" (Some "job-name=backup")));
    try reflexivity.
  repeat split.
Defined.

(** *** Jobs of a cronjob that give no logs *)

Lemma get_absent_or_listed k (o : JSObject) :
  In (k, Json.get k o) o \/ Json.get k o = JUndefined.
Proof.
  induction o as [|[k0 v0] o IH]; simpl; [now right|].
  destruct (String.eqb_spec k k0) as [->|]; [now left; left|].
  destruct IH; [left; now right|now right].
Qed.

(** A job whose flat report has no [logs] member leaves no trace in the
    cronjob report. *)
Lemma cronjob_job_without_logs exec JSON_parse SyntaxError_message input out job :
  Str.toLowerCase (resourceType input) = "cronjob" ->
  exec (jobs_args (context input) (namespace_of input) (name input)) = Stdout out ->
  discovered out <> [] ->
  job_logs exec (context input) (namespace_of input) input job = JUndefined ->
  exists allJobLogs calls jobs,
    run (kubectlLogs exec JSON_parse SyntaxError_message input)
    = (inr (mkResult
              [mkContent "text"
                 (Serialized
                    (JObj [("cronjob", JStr (name input));
                           ("namespace", JStr (namespace_of input));
                           ("jobs", JObj jobs)]))] false),
       jobs_args (context input) (namespace_of input) (name input) :: calls)
    /\ Json.norm (JObj allJobLogs) = JObj jobs
    /\ Json.get job allJobLogs = JUndefined
    /\ Json.has_key job jobs = false
    /\ forall j, In j (Str.split " "%char (Str.trim out)) ->
                 In (pods_args (context input) (namespace_of input) ("job-name=" ++ j))
                    calls.
Proof.
  intros Hrt H Hd Hlogs.
  set (g := job_logs exec (context input) (namespace_of input) input) in *.
  set (all := fold_left (fun o j => Json.set j (g j) o)
                        (Str.split " "%char (Str.trim out)) []).
  assert (Hall : forall v, In (job, v) all -> v = JUndefined).
  { intros v Hv. apply (in_assign g) in Hv.
    destruct Hv as [[]|(k & _ & [= <- ->])]. exact Hlogs. }
  destruct (Json.norm (JObj all)) as [| | | | | |jobs] eqn:En; try discriminate En.
  exists all, (concat (map (job_calls exec (context input) (namespace_of input) input)
                           (Str.split " "%char (Str.trim out)))), jobs.
  split; [|split; [|split; [|split]]].
  - unfold run. rewrite kubectlLogs_cronjob by assumption.
    rewrite (cronjob_logs_jobs exec _ _ _ _ out) by assumption.
    fold g. fold all. unfold text_content, JSON_stringify.
    change (Json.norm (JObj [("cronjob", JStr (name input));
                             ("namespace", JStr (namespace_of input));
                             ("jobs", JObj all)]))
      with (JObj [("cronjob", JStr (name input));
                  ("namespace", JStr (namespace_of input));
                  ("jobs", Json.norm (JObj all))]).
    now rewrite En.
  - exact En.
  - destruct (get_absent_or_listed job all) as [Hin|Hu]; [now apply Hall in Hin|exact Hu].
  - now apply (norm_drops_undefined job all jobs).
  - intros j Hin. apply in_concat.
    exists (job_calls exec (context input) (namespace_of input) input j).
    split; [now apply in_map|apply job_calls_listing].
Qed.

(** X7: in a cronjob request, a failure to list the pods of one job is
    swallowed: the response is still the report [{cronjob, namespace,
    jobs}] without the error flag, the pods of every listed job are still
    listed, and the failing job simply has no entry under [jobs]; the
    classification of its failure is not reported. *)
Theorem X7_unlistable_job_is_dropped (exec : list string -> ExecResult)
    (JSON_parse : string -> option JSValue) (SyntaxError_message : string -> string)
    (input : Input) (out job : string) (st : option Z) (m : string) :
  Str.toLowerCase (resourceType input) = "cronjob" ->
  exec (jobs_args (context input) (namespace_of input) (name input)) = Stdout out ->
  discovered out <> [] ->
  In job (Str.split " "%char (Str.trim out)) ->
  exec (pods_args (context input) (namespace_of input) ("job-name=" ++ job))
  = Fails st m ->
  exists r calls jobs,
    run (kubectlLogs exec JSON_parse SyntaxError_message input)
    = (inr r, jobs_args (context input) (namespace_of input) (name input) :: calls)
    /\ isError r = false
    /\ document r = JObj [("cronjob", JStr (name input));
                          ("namespace", JStr (namespace_of input));
                          ("jobs", JObj jobs)]
    /\ Json.has_key job jobs = false
    /\ (forall j, In j (Str.split " "%char (Str.trim out)) ->
                  In (pods_args (context input) (namespace_of input) ("job-name=" ++ j))
                     calls).
Proof.
  intros Hrt H Hd Hin Hf.
  assert (Hlogs : job_logs exec (context input) (namespace_of input) input job
                  = JUndefined).
  { unfold job_logs, run.
    rewrite (getLabelSelectorLogs_listing_fails exec _ _ _ _ st m) by assumption.
    cbn [fst]. unfold field.
    destruct (handleCommandError_object (Error st m)
                ("pods with selector " ++ Str.dquote ++ ("job-name=" ++ job)
                 ++ Str.dquote)) as [o Ho].
    unfold document. rewrite Ho. cbn [JSON_parse_text text parsed].
    pose proof (X := Ho). clear X.
    revert Ho. unfold handleCommandError.
    destruct (_ || _); [|destruct (Str.includes _ _)];
      cbn [content text_content JSON_stringify]; intros [= <-]; reflexivity. }
  destruct (cronjob_job_without_logs exec JSON_parse SyntaxError_message input out job
              Hrt H Hd Hlogs) as (all & calls & jobs & Hrun & _ & _ & Hk & Hcalls).
  eexists. exists calls, jobs.
  split; [exact Hrun|]. repeat split; assumption.
Qed.

Lemma X7_unlistable_job_is_dropped_witness :
  cron_unlistable_job (pods_args "ctx" "default" "job-name=j1")
  = Fails (Some 1%Z) "connection refused" /\
  exists r calls,
    run (kubectlLogs cron_unlistable_job no_parser no_wording
           (plain_input "cronjob" "nightly" None)) = (inr r, calls)
    /\ isError r = false
    /\ exists jobs, field "jobs" r = JObj jobs /\ Json.has_key "j1" jobs = false.
Proof.
  split; [reflexivity|].
  assert (Hin : In "j1" (Str.split " "%char (Str.trim "j1 j2"))) by (simpl; tauto).
  assert (Hd : discovered "j1 j2" <> []) by discriminate.
  destruct (X7_unlistable_job_is_dropped cron_unlistable_job no_parser no_wording
              (plain_input "cronjob" "nightly" None) "j1 j2" "j1"
              (Some 1%Z) "connection refused" eq_refl eq_refl Hd Hin eq_refl)
    as (r & calls & jobs & Hrun & Herr & Hdoc & Hk & _).
  exists r. eexists. split; [exact Hrun|]. split; [exact Herr|].
  exists jobs. split; [|exact Hk]. unfold field. rewrite Hdoc. reflexivity.
Defined.

(** The report of that cronjob, as serialised. *)
Example cron_unlistable_job_report :
  exists r calls,
    run (kubectlLogs cron_unlistable_job no_parser no_wording
           (plain_input "cronjob" "nightly" None)) = (inr r, calls)
    /\ document r
       = JObj [("cronjob", JStr "nightly");
               ("namespace", JStr "default");
               ("jobs", JObj [("j2", JObj [("p2", JStr "done")])])].
Proof. do 2 eexists. split; reflexivity. Qed.

(** X8: unlike the pod loop, the job loop of a cronjob request does not skip
    empty names: when the trimmed jobs listing has two spaces in a row, the
    pods with the selector job-name= (no job name) are listed as for any
    other job. *)
Theorem X8_empty_job_names_are_queried (exec : list string -> ExecResult)
    (JSON_parse : string -> option JSValue) (SyntaxError_message : string -> string)
    (input : Input) (out : string) :
  Str.toLowerCase (resourceType input) = "cronjob" ->
  exec (jobs_args (context input) (namespace_of input) (name input)) = Stdout out ->
  In "" (Str.split " "%char (Str.trim out)) ->
  Str.trim out <> "" ->
  exists r calls,
    run (kubectlLogs exec JSON_parse SyntaxError_message input)
    = (inr r, jobs_args (context input) (namespace_of input) (name input) :: calls)
    /\ In (pods_args (context input) (namespace_of input) "job-name=") calls
    /\ ~ In "" (discovered out).
Proof.
  intros Hrt H Hin Hne.
  assert (Hd : discovered out <> []).
  { intros E. apply discovered_nil in E. contradiction. }
  unfold run. rewrite kubectlLogs_cronjob by assumption.
  rewrite (cronjob_logs_jobs exec _ _ _ _ out) by assumption.
  do 2 eexists. split; [reflexivity|]. split; [|apply discovered_nonempty].
  apply in_concat.
  exists (job_calls exec (context input) (namespace_of input) input "").
  split; [now apply in_map|].
  apply (job_calls_listing exec (context input) (namespace_of input) input "").
Qed.

Lemma X8_empty_job_names_are_queried_witness :
  In "" (Str.split " "%char (Str.trim "j1  j2")) /\
  exists r calls,
    run (kubectlLogs cron_double_space no_parser no_wording
           (plain_input "cronjob" "nightly" None))
    = (inr r, jobs_args "ctx" "default" "nightly" :: calls)
    /\ In (pods_args "ctx" "default" "job-name=") calls.
Proof.
  assert (Hin : In "" (Str.split " "%char (Str.trim "j1  j2"))) by (simpl; tauto).
  split; [exact Hin|].
  assert (Hne : Str.trim "j1  j2" <> "") by discriminate.
  destruct (X8_empty_job_names_are_queried cron_double_space no_parser no_wording
              (plain_input "cronjob" "nightly" None) "j1  j2" eq_refl eq_refl Hin Hne)
    as (r & calls & Hrun & Hc & _).
  exists r, calls. split; assumption.
Defined.

(** *** The direct pod request *)

(** X9: a pod request makes exactly one external call, whose arguments are
    --context <context> -n <namespace> logs <name>, then -c <container> when
    a container is given, then the log options.  When the call succeeds the
    response is [{name, logs}] with the output as it came, untrimmed, and no
    error flag; when it fails the response is the classifier's verdict on
    the failure, described as pod <name>. *)
Theorem X9_pod_request (exec : list string -> ExecResult)
    (JSON_parse : string -> option JSValue) (SyntaxError_message : string -> string)
    (input : Input) :
  Str.toLowerCase (resourceType input) = "pod" ->
  logs_args (context input) (namespace_of input) (name input) input
  = (["--context"; context input; "-n"; namespace_of input; "logs"; name input]
     ++ match truthy (container input) with Some c => ["-c"; c] | None => [] end
     ++ addLogOptions [] input)%list
  /\ (forall out,
        exec (logs_args (context input) (namespace_of input) (name input) input)
        = Stdout out ->
        exists r,
          run (kubectlLogs exec JSON_parse SyntaxError_message input)
          = (inr r, [logs_args (context input) (namespace_of input) (name input) input])
          /\ document r = JObj [("name", JStr (name input)); ("logs", JStr out)]
          /\ isError r = false)
  /\ (forall st m,
        exec (logs_args (context input) (namespace_of input) (name input) input)
        = Fails st m ->
        run (kubectlLogs exec JSON_parse SyntaxError_message input)
        = (inr (handleCommandError (Error st m) ("pod " ++ name input)),
           [logs_args (context input) (namespace_of input) (name input) input])).
Proof.
  intros Hrt. split; [|split].
  - unfold logs_args. rewrite addLogOptions_app. unfold push.
    destruct (truthy (container input)); now rewrite <- ?app_assoc.
  - intros out H. eexists. unfold run. rewrite kubectlLogs_pod by assumption.
    rewrite H. repeat split.
  - intros st m H. unfold run. rewrite kubectlLogs_pod by assumption.
    now rewrite H.
Qed.

Lemma X9_pod_request_witness :
  Str.toLowerCase (resourceType (plain_input "Pod" "a" None)) = "pod" /\
  exists r,
    run (kubectlLogs three_pods no_parser no_wording (plain_input "Pod" "a" None))
    = (inr r, [["--context"; "ctx"; "-n"; "default"; "logs"; "a"]])
    /\ document r = JObj [("name", JStr "a"); ("logs", JStr "log of a")].
Proof.
  split; [reflexivity|].
  destruct (X9_pod_request three_pods no_parser no_wording (plain_input "Pod" "a" None)
              eq_refl) as (_ & Hok & _).
  destruct (Hok "log of a" eq_refl) as (r & Hrun & Hdoc & _).
  exists r. split; [exact Hrun|exact Hdoc].
Defined.

(** ** The other tools *)

(** *** kubectl_scale *)


(** *** explain_resource and list_api_resources *)

Lemma executeKubectlCommand_run exec args context t :
  executeKubectlCommand exec args context t
  = (match exec ("--context" :: context :: args) with
     | Stdout out => inr out
     | Fails _ m => inl (Error None ("Kubectl command failed: " ++ m))
     end, (t ++ ["--context" :: context :: args])%list).
Proof.
  unfold executeKubectlCommand, try_catch, execFileSync, throw.
  destruct (exec _); reflexivity.
Qed.

(** X11: explaining a resource makes exactly one external call whose
    arguments start with --context <context> explain and end with the
    resource, the options in between.  The output of a successful call is
    returned as it came; a failed call raises an error whose message is the
    failure message behind the two prefixes "Failed to explain resource: "
    and "Kubectl command failed: ", and whose status is gone. *)
Theorem X11_explain_resource (exec : list string -> ExecResult)
    (params : Explain.Params) :
  (exists opts,
     Explain.explain_args params
     = ("explain" :: opts ++ [Explain.resource params])%list
     /\ length opts <= 3)
  /\ snd (run (Explain.explainResource exec params))
     = ["--context" :: Explain.context params :: Explain.explain_args params]
  /\ (forall out,
        exec ("--context" :: Explain.context params :: Explain.explain_args params)
        = Stdout out ->
        fst (run (Explain.explainResource exec params))
        = inr (mkRawResult [mkRawItem "text" out]))
  /\ (forall st m,
        exec ("--context" :: Explain.context params :: Explain.explain_args params)
        = Fails st m ->
        fst (run (Explain.explainResource exec params))
        = inl (Error None
                 ("Failed to explain resource: Kubectl command failed: " ++ m))).
Proof.
  split; [|split; [|split]].
  - unfold Explain.explain_args, push.
    destruct (truthy (Explain.apiVersion params)), (Explain.recursive params),
      (truthy (Explain.output params)); cbn [app];
      match goal with |- exists o, _ :: ?l = _ /\ _ => exists (removelast l) end;
      (split; [reflexivity|simpl; lia]).
  - unfold run, Explain.explainResource, try_catch, bind.
    rewrite executeKubectlCommand_run. destruct (exec _); reflexivity.
  - intros out H. unfold run, Explain.explainResource, try_catch, bind.
    rewrite executeKubectlCommand_run, H. reflexivity.
  - intros st m H. unfold run, Explain.explainResource, try_catch, bind.
    rewrite executeKubectlCommand_run, H. reflexivity.
Qed.

(** X12: listing the API resources makes exactly one external call whose
    arguments start with --context <context> api-resources.  A namespaced
    value is passed whenever it is given, false included, while an empty
    list of verbs adds nothing; the verbs given are joined by commas.  The
    output of a successful call is returned as it came; a failed call raises
    an error whose message is the failure message behind the prefixes
    "Failed to list API resources: " and "Kubectl command failed: ". *)
Theorem X12_list_api_resources (exec : list string -> ExecResult)
    (params : ApiResources.Params) :
  (exists opts,
     ApiResources.api_resources_args params = "api-resources" :: opts)
  /\ (forall b, ApiResources.namespaced params = Some b ->
                In ("--namespaced=" ++ (if b then "true" else "false"))
                   (ApiResources.api_resources_args params))
  /\ (forall v vs, ApiResources.verbs params = Some (v :: vs) ->
                   In ("--verbs=" ++ Str.join "," (v :: vs))
                      (ApiResources.api_resources_args params))
  /\ (ApiResources.verbs params = Some [] ->
      forall a, In a (ApiResources.api_resources_args params) ->
                Str.starts_with "--verbs=" a = true ->
                truthy (ApiResources.output params) = Some a)
  /\ snd (run (ApiResources.listApiResources exec params))
     = ["--context" :: ApiResources.context params
          :: ApiResources.api_resources_args params]
  /\ (forall out,
        exec ("--context" :: ApiResources.context params
                :: ApiResources.api_resources_args params) = Stdout out ->
        fst (run (ApiResources.listApiResources exec params))
        = inr (mkRawResult [mkRawItem "text" out]))
  /\ (forall st m,
        exec ("--context" :: ApiResources.context params
                :: ApiResources.api_resources_args params) = Fails st m ->
        fst (run (ApiResources.listApiResources exec params))
        = inl (Error None
                 ("Failed to list API resources: Kubectl command failed: " ++ m))).
Proof.
  split; [|split; [|split; [|split; [|split; [|split]]]]].
  - unfold ApiResources.api_resources_args, push.
    destruct (truthy (ApiResources.apiGroup params)), (ApiResources.namespaced params),
      (ApiResources.verbs params) as [[|v vs]|], (truthy (ApiResources.output params));
      cbn [app]; eexists; reflexivity.
  - intros b Hb. unfold ApiResources.api_resources_args, push. rewrite Hb.
    destruct (truthy (ApiResources.apiGroup params)),
      (ApiResources.verbs params) as [[|v vs]|], (truthy (ApiResources.output params));
      cbn [app In]; tauto.
  - intros v vs Hv. unfold ApiResources.api_resources_args, push. rewrite Hv.
    destruct (truthy (ApiResources.apiGroup params)), (ApiResources.namespaced params),
      (truthy (ApiResources.output params)); cbn [app In]; tauto.
  - intros Hv a. unfold ApiResources.api_resources_args, push. rewrite Hv.
    destruct (truthy (ApiResources.apiGroup params)) as [g|],
      (ApiResources.namespaced params) as [[|]|],
      (truthy (ApiResources.output params)) as [o|]; cbn [app In];
      intros Hin Hs;
      repeat (destruct Hin as [<-|Hin]; [try discriminate Hs; try reflexivity|]);
      try destruct Hin.
  - unfold run, ApiResources.listApiResources, try_catch, bind.
    rewrite executeKubectlCommand_run. destruct (exec _); reflexivity.
  - intros out H. unfold run, ApiResources.listApiResources, try_catch, bind.
    rewrite executeKubectlCommand_run, H. reflexivity.
  - intros st m H. unfold run, ApiResources.listApiResources, try_catch, bind.
    rewrite executeKubectlCommand_run, H. reflexivity.
Qed.

(** *** kubectl_get *)

Lemma lower_char_idempotent c : Str.lower_char (Str.lower_char c) = Str.lower_char c.
Proof.
  destruct c as [[] [] [] [] [] [] [] []]; reflexivity.
Qed.

Lemma toLowerCase_idempotent s :
  Str.toLowerCase (Str.toLowerCase s) = Str.toLowerCase s.
Proof.
  induction s as [|c s IH]; simpl; [reflexivity|].
  now rewrite lower_char_idempotent, IH.
Qed.

Lemma map_throwing_length f l l' :
  Get.map_throwing f l = Some l' -> length l' = length l.
Proof.
  revert l'. induction l as [|x l IH]; intros l'; simpl.
  - now intros [= <-].
  - destruct (f x); [|discriminate].
    destruct (Get.map_throwing f l); [|discriminate].
    intros [= <-]. simpl. f_equal. now apply IH.
Qed.

(** What the formatting block returns, when it returns. *)
Lemma format_list_some JSON_parse resourceType result r :
  Get.format_list JSON_parse resourceType result = Some r ->
  exists parsed kind items formatted,
    JSON_parse result = Some parsed
    /\ opt_member "kind" parsed = JStr kind
    /\ ends_with "List" kind = true
    /\ opt_member "items" parsed = JArr items
    /\ length formatted = length items
    /\ r = Get.mkResult
             [Get.mkItem "text"
                (Get.JsonBody
                   (JSON_stringify
                      (JObj [(if String.eqb resourceType "events"
                              then "events" else "items", JArr formatted)])))]
             false.
Proof.
  unfold Get.format_list, opt_member.
  destruct (JSON_parse result) as [parsed|] eqn:Ep; [|discriminate].
  destruct (Json.member "kind" parsed) as [kind|] eqn:Ek; [|discriminate].
  destruct (js_truthy kind); [|discriminate].
  destruct kind as [| | | |k| |]; try discriminate.
  destruct (ends_with "List" k) eqn:El; [|discriminate]. cbn [andb].
  destruct (Json.member "items" parsed) as [items|] eqn:Ei;
    [|cbn [js_truthy]; discriminate].
  destruct (js_truthy items); [|discriminate].
  destruct items as [| | | | |items|]; try discriminate.
  destruct (String.eqb resourceType "events").
  - destruct (Get.map_throwing Get.format_event items) as [formatted|] eqn:Em;
      [|discriminate].
    intros [= <-]. exists parsed, k, items, formatted.
    apply map_throwing_length in Em. rewrite Ek, Ei. repeat split; auto.
  - destruct (Get.map_throwing (Get.format_item resourceType) items) as [formatted|] eqn:Em;
      [|discriminate].
    intros [= <-]. exists parsed, k, items, formatted.
    apply map_throwing_length in Em. rewrite Ek, Ei. repeat split; auto.
Qed.

(** X13: a get makes exactly one external call.  When that call fails with
    status 404 or a message containing "not found", the response is the
    error document "Resource <type>[/<name>] not found" with status
    [not_found]; any other failure raises [InternalError], its message
    wrapped twice: "Failed to execute kubectl get command: " followed by the
    message of the [InternalError] "Failed to get resource: <message>". *)
Theorem X13_get_failures (exec : list string -> ExecResult)
    (JSON_parse : string -> option JSValue)
    (McpError_message : ErrorCode -> string -> string) (input : Get.Input)
    (st : option Z) (m : string) :
  exec (Get.get_args input) = Fails st m ->
  snd (run (Get.kubectlGet exec JSON_parse McpError_message input))
  = [Get.get_args input]
  /\ (st = Some 404%Z \/ Str.includes "not found" m = true ->
      fst (run (Get.kubectlGet exec JSON_parse McpError_message input))
      = inr (Get.mkResult
               [Get.mkItem "text"
                  (Get.JsonBody
                     (Serialized
                        (JObj [("error",
                                JStr ("Resource " ++ Str.toLowerCase (Get.resourceType input)
                                      ++ match truthy (Get.name input) with
                                         | Some n => "/" ++ n
                                         | None => ""
                                         end ++ " not found"));
                               ("status", JStr "not_found")])))] true))
  /\ (st <> Some 404%Z -> Str.includes "not found" m = false ->
      fst (run (Get.kubectlGet exec JSON_parse McpError_message input))
      = inl (McpError InternalError
               ("Failed to execute kubectl get command: "
                ++ McpError_message InternalError ("Failed to get resource: " ++ m)))).
Proof.
  intros H.
  unfold run, Get.kubectlGet, try_catch, bind, execFileSync, ret, throw.
  rewrite H. cbn [error_status message_of].
  split; [|split].
  - destruct (_ || _); reflexivity.
  - intros Hnf.
    assert (E : (match st with Some st0 => Z.eqb st0 404 | None => false end
                 || Str.includes "not found" m) = true).
    { destruct Hnf as [-> | ->]; [reflexivity|apply orb_true_r]. }
    rewrite E. cbn [fst]. unfold Get.not_found_text, or_default.
    destruct (truthy (Get.name input)) as [n|] eqn:En; [|reflexivity].
    destruct n as [|c n]; [|reflexivity].
    destruct (Get.name input) as [[|]|]; discriminate En.
  - intros Hst Hnf. rewrite Hnf, orb_false_r.
    destruct st as [z|]; [|reflexivity].
    destruct (Z.eqb_spec z 404); [subst; contradiction|reflexivity].
Qed.

Lemma X13_get_failures_witness :
  unexpected_call = Fails None "unexpected call" /\
  fst (run (Get.kubectlGet (fun _ => unexpected_call) no_parser
              (fun _ text => "MCP error: " ++ text) list_pods_input))
  = inl (McpError InternalError
           "Failed to execute kubectl get command: MCP error: Failed to get resource: unexpected call").
Proof.
  split; [reflexivity|].
  destruct (X13_get_failures (fun _ => unexpected_call) no_parser
              (fun _ text => "MCP error: " ++ text) list_pods_input
              None "unexpected call" eq_refl) as (_ & _ & Hraise).
  apply Hraise; [discriminate|reflexivity].
Defined.

(** X14: a get whose call succeeds never raises and never sets the error
    flag.  Its response is the output as it came or, only for a request
    without a name and with json output, a document with the single member
    [events] (for events) or [items] holding exactly one entry per item of
    the parsed list, whose kind ends in List; whenever the output does not
    parse to such a list, or formatting an item fails, it is the output as
    it came. *)
Theorem X14_get_success (exec : list string -> ExecResult)
    (JSON_parse : string -> option JSValue)
    (McpError_message : ErrorCode -> string -> string) (input : Get.Input)
    (out : string) :
  exec (Get.get_args input) = Stdout out ->
  exists r,
    run (Get.kubectlGet exec JSON_parse McpError_message input)
    = (inr r, [Get.get_args input])
    /\ Get.isError r = false
    /\ (Get.content r = [Get.mkItem "text" (Get.RawBody out)]
        \/
        (truthy (Get.name input) = None /\
         or_default (Get.output input) "json" = "json" /\
         exists parsed kind items formatted,
           JSON_parse out = Some parsed
           /\ opt_member "kind" parsed = JStr kind
           /\ ends_with "List" kind = true
           /\ opt_member "items" parsed = JArr items
           /\ length formatted = length items
           /\ Get.content r
              = [Get.mkItem "text"
                   (Get.JsonBody
                      (JSON_stringify
                         (JObj [(if String.eqb (Str.toLowerCase (Get.resourceType input))
                                                "events"
                                 then "events" else "items", JArr formatted)])))]))
    /\ (truthy (Get.name input) <> None \/
        or_default (Get.output input) "json" <> "json" \/
        JSON_parse out = None ->
        Get.content r = [Get.mkItem "text" (Get.RawBody out)]).
Proof.
  intros H.
  unfold run, Get.kubectlGet, try_catch, bind, execFileSync, ret.
  rewrite H.
  assert (Hname : String.eqb (or_default (Get.name input) "") "" = true <->
                  truthy (Get.name input) = None).
  { unfold or_default. destruct (Get.name input) as [[|c n]|]; simpl;
      split; intros; congruence. }
  destruct (String.eqb (or_default (Get.name input) "") "") eqn:En.
  - destruct (String.eqb (or_default (Get.output input) "json") "json") eqn:Eo.
    + cbn [andb].
      destruct (Get.format_list JSON_parse (Str.toLowerCase (Get.resourceType input)) out)
        as [formatted|] eqn:Ef.
      * destruct (format_list_some _ _ _ _ Ef)
          as (parsed & kind & items & fl & Hp & Hk & Hl & Hi & Hlen & ->).
        eexists. split; [reflexivity|]. split; [reflexivity|]. split.
        -- right. split; [now apply Hname|]. split; [now apply String.eqb_eq|].
           exists parsed, kind, items, fl. repeat split; auto.
        -- intros [Hn|[Ho|Hn]].
           ++ exfalso. apply Hn. now apply Hname.
           ++ exfalso. apply Ho. now apply String.eqb_eq.
           ++ congruence.
      * eexists. split; [reflexivity|]. split; [reflexivity|]. split; [now left|].
        reflexivity.
    + cbn [andb]. eexists. split; [reflexivity|]. split; [reflexivity|].
      split; [now left|reflexivity].
  - cbn [andb]. eexists. split; [reflexivity|]. split; [reflexivity|].
    split; [now left|reflexivity].
Qed.

Lemma X14_get_success_witness :
  pods_listed (Get.get_args list_pods_input) = Stdout "two pods" /\
  exists r,
    run (Get.kubectlGet pods_listed (parse_only "two pods" two_pods_list)
           (fun _ text => text) list_pods_input)
    = (inr r, [["get"; "pods"; "--context"; "ctx"; "-n"; "default"; "-o"; "json"]])
    /\ Get.isError r = false.
Proof.
  split; [reflexivity|].
  destruct (X14_get_success pods_listed (parse_only "two pods" two_pods_list)
              (fun _ text => text) list_pods_input "two pods" eq_refl)
    as (r & Hrun & Herr & _).
  exists r. split; [exact Hrun|exact Herr].
Defined.

(** The formatted list of two pods. *)
Example two_pods_formatted :
  fst (run (Get.kubectlGet pods_listed (parse_only "two pods" two_pods_list)
              (fun _ text => text) list_pods_input))
  = inr (Get.mkResult
           [Get.mkItem "text"
              (Get.JsonBody
                 (Serialized
                    (JObj [("items",
                            JArr [JObj [("name", JStr "a");
                                        ("namespace", JStr "default");
                                        ("kind", JStr "Pod");
                                        ("status", JStr "Running")];
                                  JObj [("name", JStr "b");
                                        ("namespace", JStr "");
                                        ("kind", JStr "pods");
                                        ("status", JStr "0/0 ready")]])])))] false).
Proof. reflexivity. Qed.

Lemma non_namespaced_is_not_events resourceType :
  Get.isNonNamespacedResource resourceType = true ->
  String.eqb (Str.toLowerCase resourceType) "events" = false.
Proof.
  unfold Get.isNonNamespacedResource. cbn [existsb]. intros H.
  repeat (apply orb_true_iff in H; destruct H as [H|H]);
    try (apply String.eqb_eq in H; rewrite H; reflexivity).
  discriminate H.
Qed.

Lemma isNonNamespacedResource_lower resourceType :
  Get.isNonNamespacedResource (Str.toLowerCase resourceType)
  = Get.isNonNamespacedResource resourceType.
Proof.
  unfold Get.isNonNamespacedResource. now rewrite toLowerCase_idempotent.
Qed.

(** X15: the arguments of a get do not depend on the namespace when the
    resource type is cluster-scoped (nodes, namespaces, persistent volumes,
    storage classes, cluster roles and bindings, custom resource
    definitions, under any letter case) and all-namespaces is off; for
    events they do not depend on the all-namespaces flag, and events
    requested without a namespace are listed across all namespaces. *)
Theorem X15_get_namespace_flags (input : Get.Input) :
  (Get.isNonNamespacedResource (Get.resourceType input) = true ->
   Get.allNamespaces input = false ->
   forall ns, Get.get_args (get_with_namespace ns input) = Get.get_args input)
  /\ (Str.toLowerCase (Get.resourceType input) = "events" ->
      forall b, Get.get_args (get_with_allNamespaces b input) = Get.get_args input)
  /\ (Str.toLowerCase (Get.resourceType input) = "events" ->
      truthy (Get.namespace input) = None ->
      In "--all-namespaces" (Get.get_args input) /\
      In "--sort-by=.lastTimestamp" (Get.get_args input) \/
      exists s, truthy (Get.sortBy input) = Some s /\
                In "--all-namespaces" (Get.get_args input) /\
                In ("--sort-by=." ++ s) (Get.get_args input)).
Proof.
  split; [|split].
  - intros Hc Ha ns.
    pose proof (non_namespaced_is_not_events _ Hc) as Hev.
    unfold Get.get_args, get_with_namespace.
    cbn [Get.resourceType Get.name Get.namespace Get.output Get.allNamespaces
         Get.labelSelector Get.fieldSelector Get.sortBy Get.context].
    rewrite Hev, Ha, isNonNamespacedResource_lower, Hc.
    cbn [negb]. rewrite !andb_false_r. reflexivity.
  - intros He b. unfold Get.get_args, get_with_allNamespaces.
    cbn [Get.resourceType Get.name Get.namespace Get.output Get.allNamespaces
         Get.labelSelector Get.fieldSelector Get.sortBy Get.context].
    rewrite He. reflexivity.
  - intros He Hn. unfold Get.get_args, push. rewrite He, Hn.
    change (String.eqb "events" "events") with true. cbv iota.
    destruct (truthy (Get.sortBy input)) as [s|] eqn:Es.
    + right. exists s. split; [reflexivity|].
      split; repeat (rewrite ?in_app_iff; cbn [In]);
        destruct (negb _), (negb _), (negb _);
        repeat (destruct (String.eqb _ _));
        repeat (rewrite ?in_app_iff; cbn [In]); tauto.
    + left.
      split; repeat (rewrite ?in_app_iff; cbn [In]);
        destruct (negb _), (negb _), (negb _);
        repeat (destruct (String.eqb _ _));
        repeat (rewrite ?in_app_iff; cbn [In]); tauto.
Qed.

Lemma append_truthy a b : js_truthy (JStr (a ++ "/" ++ b)) = true.
Proof. destruct a; reflexivity. Qed.

(** X16: the status computed for a resource is never empty: whenever
    [getResourceStatus] returns, the value is truthy (a non-empty text or
    another non-empty value taken from the resource); and it can throw only
    while reading a non-empty [status.conditions]. *)
Theorem X16_status_is_never_empty (resource : JSValue) :
  match Get.getResourceStatus resource with
  | Some v => js_truthy v = true
  | None =>
      js_truthy (opt_member "conditions" (opt_member "status" resource)) = true
  end.
Proof.
  unfold Get.getResourceStatus.
  destruct (js_truthy resource); cbn [negb]; [|reflexivity].
  destruct (js_truthy (opt_member "phase" (opt_member "status" resource))) eqn:Ep;
    [exact Ep|].
  destruct (is_undefined (opt_member "readyReplicas" (opt_member "status" resource)));
    cbn [negb]; [|apply append_truthy].
  destruct (js_truthy (opt_member "type" (opt_member "spec" resource))) eqn:Et;
    [exact Et|].
  assert (Hrest :
            match (if negb (is_undefined (opt_member "succeeded"
                                            (opt_member "status" resource)))
                   then Some (JStr (if js_truthy (opt_member "succeeded"
                                                    (opt_member "status" resource))
                                    then "Completed" else "Running"))
                   else Some (JStr "Active")) with
            | Some v => js_truthy v = true
            | None => js_truthy (opt_member "conditions" (opt_member "status" resource))
                      = true
            end).
  { destruct (is_undefined (opt_member "succeeded" (opt_member "status" resource)));
      cbn [negb]; [reflexivity|].
    destruct (js_truthy (opt_member "succeeded" (opt_member "status" resource)));
      reflexivity. }
  destruct (js_truthy (opt_member "conditions" (opt_member "status" resource))) eqn:Ec;
    [|exact Hrest].
  destruct (opt_member "conditions" (opt_member "status" resource)) as [| | | | |l|];
    try reflexivity.
  destruct (Get.find_ready l) as [[c|]|]; [|exact Hrest|reflexivity].
  destruct (is_string "True" (opt_member "status" c)); reflexivity.
Qed.

(** *** kubectl_context *)

Lemma or_default_nonempty o d : d <> "" -> or_default o d <> "".
Proof.
  intros Hd. unfold or_default. destruct o as [[|c s]|]; simpl; auto; discriminate.
Qed.

(** A context, once serialised, still has its namespace and its flag. *)
Lemma context_of_serialised headers line :
  exists o ns cur,
    Json.norm (Context.context_of headers line) = JObj o
    /\ Json.get "namespace" o = JStr ns /\ ns <> ""
    /\ Json.get "isCurrent" o = JBool cur.
Proof.
  unfold Context.context_of.
  set (columns := split_whitespace (Str.trim line)).
  set (ns := or_default (column columns (indexOf "NAMESPACE" headers)) "default").
  assert (Hns : ns <> "") by (apply or_default_nonempty; discriminate).
  destruct (column columns (indexOf "NAME" headers)),
    (column columns (indexOf "CLUSTER" headers)),
    (column columns (indexOf "AUTHINFO" headers));
    cbn [optional_text Json.norm];
    eexists; exists ns; eexists; (split; [reflexivity|split; [reflexivity|split;
      [exact Hns|reflexivity]]]).
Qed.

Lemma context_of_is_object headers line :
  match Context.context_of headers line with JUndefined => False | _ => True end.
Proof. unfold Context.context_of. exact I. Qed.

(** X17: when the table of contexts is printed, the response is the
    document [{contexts}] with exactly one context per line after the first
    line of the trimmed output; every context has a non-empty namespace,
    default when the line gives none, and a boolean [isCurrent].  A single
    call is made. *)
Theorem X17_contexts_are_listed (exec : list string -> ExecResult)
    (McpError_message : ErrorCode -> string -> string) (input : Context.Input)
    (rawResult : string) :
  Context.output input <> Some "name" ->
  exec ["config"; "get-contexts"] = Stdout rawResult ->
  exists contexts,
    run (Context.kubectlContext exec McpError_message input)
    = (inr (Get.mkResult
              [Get.mkItem "text"
                 (Get.JsonBody (Serialized (JObj [("contexts", JArr contexts)])))]
              false),
       [["config"; "get-contexts"]])
    /\ length contexts = length (Str.split newline (Str.trim rawResult)) - 1
    /\ forall c, In c contexts ->
         exists o ns cur,
           c = JObj o /\ Json.get "namespace" o = JStr ns /\ ns <> ""
           /\ Json.get "isCurrent" o = JBool cur.
Proof.
  intros Hout H.
  assert (Hn : String.eqb (match Context.output input with Some o => o | None => "json" end)
                          "name" = false).
  { destruct (Context.output input) as [o|]; [|reflexivity].
    apply String.eqb_neq. intros ->. now apply Hout. }
  exists (map (fun x => match x with JUndefined => JNull | _ => Json.norm x end)
              (Context.parse_contexts rawResult)).
  split; [|split].
  - unfold run, Context.kubectlContext, try_catch, bind, execFileSync, ret.
    rewrite Hn, H. reflexivity.
  - unfold Context.parse_contexts. rewrite !length_map.
    destruct (Str.split newline (Str.trim rawResult)); simpl; lia.
  - intros c Hin. apply in_map_iff in Hin. destruct Hin as (x & <- & Hx).
    unfold Context.parse_contexts in Hx. apply in_map_iff in Hx.
    destruct Hx as (line & <- & _).
    destruct (context_of_serialised
                (split_whitespace
                   (Str.trim (hd EmptyString (Str.split newline (Str.trim rawResult)))))
                line) as (o & ns & cur & Hnorm & Hns & Hne & Hcur).
    exists o, ns, cur. split; [|auto].
    rewrite <- Hnorm. unfold Context.context_of. reflexivity.
Qed.

Lemma X17_contexts_are_listed_witness :
  exists contexts,
    fst (run (Context.kubectlContext
                (table_exec [(["config"; "get-contexts"], Stdout two_contexts_table)]
                            unexpected_call)
                (fun _ text => text) (Context.mkInput None None None)))
    = inr (Get.mkResult
             [Get.mkItem "text"
                (Get.JsonBody (Serialized (JObj [("contexts", JArr contexts)])))]
             false)
    /\ length contexts = 2.
Proof.
  assert (Hout : Context.output (Context.mkInput None None None) <> Some "name")
    by discriminate.
  destruct (X17_contexts_are_listed
              (table_exec [(["config"; "get-contexts"], Stdout two_contexts_table)]
                          unexpected_call)
              (fun _ text => text) (Context.mkInput None None None)
              two_contexts_table Hout eq_refl) as (contexts & Hrun & Hlen & _).
  exists contexts. rewrite Hrun. split; [reflexivity|exact Hlen].
Defined.

(** X18: listing the contexts makes exactly one external call: config
    get-contexts, followed by -o name exactly when the output asked for is
    name.  In that case the output of a successful call is returned as it
    came; and whatever the output asked for, a failed call raises
    [InternalError] "Failed to list kubectl contexts: <message>". *)
Theorem X18_contexts_call (exec : list string -> ExecResult)
    (McpError_message : ErrorCode -> string -> string) (input : Context.Input) :
  snd (run (Context.kubectlContext exec McpError_message input))
  = [if match Context.output input with
        | Some o => String.eqb o "name"
        | None => false
        end
     then ["config"; "get-contexts"; "-o"; "name"]
     else ["config"; "get-contexts"]]
  /\ (Context.output input = Some "name" ->
      forall out,
        exec ["config"; "get-contexts"; "-o"; "name"] = Stdout out ->
        fst (run (Context.kubectlContext exec McpError_message input))
        = inr (Get.mkResult [Get.mkItem "text" (Get.RawBody out)] false))
  /\ (forall st m,
        exec (if match Context.output input with
                 | Some o => String.eqb o "name"
                 | None => false
                 end
              then ["config"; "get-contexts"; "-o"; "name"]
              else ["config"; "get-contexts"]) = Fails st m ->
        fst (run (Context.kubectlContext exec McpError_message input))
        = inl (McpError InternalError ("Failed to list kubectl contexts: " ++ m))).
Proof.
  unfold run, Context.kubectlContext, try_catch, bind, execFileSync, ret, throw, push.
  cbv beta zeta.
  split; [|split].
  - destruct (Context.output input) as [o|]; cbn [app].
    + destruct (String.eqb o "name"); destruct (exec _); reflexivity.
    + change (String.eqb "json" "name") with false. cbv iota.
      destruct (exec _); reflexivity.
  - intros -> out H. cbn [app]. change (String.eqb "name" "name") with true.
    cbv iota. now rewrite H.
  - intros st m. destruct (Context.output input) as [o|]; cbn [app].
    + destruct (String.eqb o "name"); intros ->; reflexivity.
    + change (String.eqb "json" "name") with false. cbv iota.
      intros ->. reflexivity.
Qed.

Lemma trim_start_end_commute s :
  Str.trim_start (Str.trim_end s) = Str.trim_end (Str.trim_start s).
Proof.
  induction s as [|c s IH]; [reflexivity|].
  cbn [Str.trim_start Str.trim_end].
  destruct (Str.is_space c) eqn:Ec.
  - destruct (Str.trim_end s) as [|c' t] eqn:Et.
    + rewrite <- IH. reflexivity.
    + rewrite <- IH. cbn [Str.trim_start]. now rewrite Ec.
  - destruct (Str.trim_end s) as [|c' t] eqn:Et;
      cbn [Str.trim_start Str.trim_end]; rewrite Ec, ?Et; reflexivity.
Qed.

Lemma split_runs_skips_leading s :
  split_runs true s = split_runs true (Str.trim_start s).
Proof.
  induction s as [|c s IH]; [reflexivity|].
  cbn [split_runs Str.trim_start].
  destruct (Str.is_space c) eqn:Ec; [exact IH|].
  cbn [split_runs]. now rewrite Ec.
Qed.

Lemma split_runs_after_start s :
  split_runs true (Str.trim_start s) = split_runs false (Str.trim_start s).
Proof.
  destruct (trim_start_head s) as [->|(c & t & -> & Hc)]; [reflexivity|].
  cbn [split_runs]. now rewrite Hc.
Qed.

(** A line with the marker in front has the words of the line, after the
    marker. *)
Lemma words_of_marked_line line :
  Str.trim line <> "" ->
  split_whitespace (Str.trim ("* " ++ line)) = "*" :: split_whitespace (Str.trim line).
Proof.
  intros Hne.
  assert (Hte : Str.trim_end line <> "").
  { intros E. apply Hne. unfold Str.trim. rewrite <- trim_start_end_commute, E.
    reflexivity. }
  assert (Ht : Str.trim ("* " ++ line) = String "*" (String " " (Str.trim_end line))).
  { unfold Str.trim. cbn [append Str.trim_start].
    change (Str.is_space "*") with false. cbv iota.
    cbn [Str.trim_end]. destruct (Str.trim_end line) as [|c t]; [contradiction|].
    reflexivity. }
  rewrite Ht. unfold split_whitespace. cbn [split_runs].
  change (Str.is_space "*") with false. change (Str.is_space " ") with true.
  cbv iota.
  rewrite split_runs_skips_leading, split_runs_after_start, trim_start_end_commute.
  reflexivity.
Qed.

(** X19: the lines of the contexts table are read by word position, not by
    column position.  Under the header CURRENT NAME CLUSTER AUTHINFO
    NAMESPACE, a line that starts with the marker is reported as current,
    with its next word as name; the same line without the marker, as kubectl
    prints it for a context that is not current, is read one word off: its
    name is what the marked line gives as cluster, its cluster what the
    marked line gives as user, and so on to the namespace. *)
Theorem X19_lines_are_read_by_word (line : string) :
  Str.trim line <> "" ->
  opt_member "isCurrent"
    (Context.context_of ["CURRENT"; "NAME"; "CLUSTER"; "AUTHINFO"; "NAMESPACE"]
       ("* " ++ line)) = JBool true
  /\ opt_member "name"
       (Context.context_of ["CURRENT"; "NAME"; "CLUSTER"; "AUTHINFO"; "NAMESPACE"]
          ("* " ++ line))
     = optional_text (option_map Str.trim
                        (nth_error (split_whitespace (Str.trim line)) 0))
  /\ opt_member "name"
       (Context.context_of ["CURRENT"; "NAME"; "CLUSTER"; "AUTHINFO"; "NAMESPACE"] line)
     = opt_member "cluster"
         (Context.context_of ["CURRENT"; "NAME"; "CLUSTER"; "AUTHINFO"; "NAMESPACE"]
            ("* " ++ line))
  /\ opt_member "cluster"
       (Context.context_of ["CURRENT"; "NAME"; "CLUSTER"; "AUTHINFO"; "NAMESPACE"] line)
     = opt_member "user"
         (Context.context_of ["CURRENT"; "NAME"; "CLUSTER"; "AUTHINFO"; "NAMESPACE"]
            ("* " ++ line))
  /\ opt_member "user"
       (Context.context_of ["CURRENT"; "NAME"; "CLUSTER"; "AUTHINFO"; "NAMESPACE"] line)
     = optional_text (option_map Str.trim
                        (nth_error (split_whitespace (Str.trim line)) 3)).
Proof.
  intros Hne. unfold Context.context_of.
  rewrite (words_of_marked_line line Hne).
  repeat split.
Qed.

Lemma X19_lines_are_read_by_word_witness :
  Str.trim "          prod   prod-c    prod-u" <> "" /\
  Context.context_of ["CURRENT"; "NAME"; "CLUSTER"; "AUTHINFO"; "NAMESPACE"]
    "          prod   prod-c    prod-u"
  = JObj [("name", JStr "prod-c");
          ("cluster", JStr "prod-u");
          ("user", JUndefined);
          ("namespace", JStr "default");
          ("isCurrent", JBool false)] /\
  opt_member "cluster"
    (Context.context_of ["CURRENT"; "NAME"; "CLUSTER"; "AUTHINFO"; "NAMESPACE"]
       ("* " ++ "          prod   prod-c    prod-u"))
  = JStr "prod-c".
Proof.
  assert (Hne : Str.trim "          prod   prod-c    prod-u" <> "") by discriminate.
  split; [exact Hne|]. split; [reflexivity|].
  destruct (X19_lines_are_read_by_word "          prod   prod-c    prod-u" Hne)
    as (_ & _ & Hname & _).
  rewrite <- Hname. reflexivity.
Defined.

(** *** The list of tools offered by the server *)

(** X20: the tools listed are always tools of the full list, in its order,
    except in read-only mode, which lists the read-only tools as declared.
    In non-destructive mode no listed tool bears the name of a destructive
    tool.  A non-empty ALLOWED_TOOLS takes precedence over both modes: the
    listing is then exactly the tools whose name is one of its
    comma-separated, trimmed entries, destructive ones included. *)
Theorem X20_tools_listing (allTools readonlyTools destructiveTools : list Server.Schema)
    (env : Server.Env) :
  (truthy (Server.ALLOWED_TOOLS env) = None ->
   Server.is_true (Server.ALLOW_ONLY_READONLY_TOOLS env) = true ->
   Server.listTools allTools readonlyTools destructiveTools env = readonlyTools)
  /\ (truthy (Server.ALLOWED_TOOLS env) <> None \/
      Server.is_true (Server.ALLOW_ONLY_READONLY_TOOLS env) = false ->
      exists keep,
        Server.listTools allTools readonlyTools destructiveTools env
        = filter keep allTools)
  /\ (truthy (Server.ALLOWED_TOOLS env) = None ->
      Server.is_true (Server.ALLOW_ONLY_READONLY_TOOLS env) = false ->
      Server.is_true (Server.ALLOW_ONLY_NON_DESTRUCTIVE_TOOLS env) = true ->
      forall tool dt,
        In tool (Server.listTools allTools readonlyTools destructiveTools env) ->
        In dt destructiveTools -> Server.name dt <> Server.name tool)
  /\ (forall allowed,
        truthy (Server.ALLOWED_TOOLS env) = Some allowed ->
        forall tool,
          In tool (Server.listTools allTools readonlyTools destructiveTools env) <->
          In tool allTools /\
          In (Server.name tool) (map Str.trim (Str.split ","%char allowed)))
  /\ (truthy (Server.ALLOWED_TOOLS env) = None ->
      Server.is_true (Server.ALLOW_ONLY_READONLY_TOOLS env) = false ->
      Server.is_true (Server.ALLOW_ONLY_NON_DESTRUCTIVE_TOOLS env) = false ->
      Server.listTools allTools readonlyTools destructiveTools env = allTools).
Proof.
  unfold Server.listTools.
  split; [|split; [|split; [|split]]].
  - intros -> ->. reflexivity.
  - intros [Ha|Hr].
    + destruct (truthy (Server.ALLOWED_TOOLS env)); [eauto|contradiction].
    + rewrite Hr. destruct (truthy (Server.ALLOWED_TOOLS env)); [eauto|].
      destruct (Server.is_true (Server.ALLOW_ONLY_NON_DESTRUCTIVE_TOOLS env)); [eauto|].
      exists (fun _ => true). symmetry. apply forallb_filter_id.
      now apply forallb_forall.
  - intros -> -> -> tool dt Hin Hdt Heq.
    apply filter_In in Hin. destruct Hin as [_ Hin].
    apply negb_true_iff in Hin.
    assert (Hex : existsb (fun dt0 => String.eqb (Server.name dt0) (Server.name tool))
                          destructiveTools = true).
    { apply existsb_exists. exists dt. split; [assumption|now apply String.eqb_eq]. }
    congruence.
  - intros allowed -> tool. rewrite filter_In. unfold Server.includes.
    rewrite existsb_exists. split.
    + intros [Hin (x & Hx & He)]. apply String.eqb_eq in He. subst. auto.
    + intros [Hin Hn]. split; [assumption|].
      exists (Server.name tool). split; [assumption|apply String.eqb_refl].
  - intros -> -> ->. reflexivity.
Qed.
